(** * Ligna: the dimension-resolution engine ([utils/cabinetLogic])

    A shallow embedding of the four functions that turn a parametric cabinet
    description into a cut list,

      - [evaluateExpression]      (safe arithmetic evaluator),
      - [buildExpressionContext]  (design variables of one cabinet),
      - [getMaterialThickness]    (material library lookup),
      - [calculateParts]          (part-rule processor),

    of the utilities of the same module ([generateCutListCSV], [escapeCSV],
    [flattenProjectToCutList], [consolidateParts], [formatDimension],
    [parseDimension]), of the CSV export of [services/chartaApi], and of the
    cut lists that the header and the cut-list modal compute with them,
    together with the pieces of the host language they rest on.

    Conventions of the embedding.
      - A JavaScript number is an IEEE 754 binary64 value: Rocq's primitive
        [float], whose [+ - * /] and comparisons are the ones of the host.
      - A string is a sequence of code units; the model covers the code units
        below 256, one [ascii] each.
      - A plain object used as a dictionary ([ExpressionContext],
        [Record<string, number>]) is an association list in insertion order.
        Values are immutable here, so a copy of an object ([{...o}]) is the
        object itself.
      - A result of type [option _] is [None] exactly when a call leaves the
        fragment of the host language that is modelled here (see
        [RegExp_literal] and [Engine.run]): the model then says nothing
        about the call. [Some v] is a normal return of [v]. *)

From Stdlib Require Import ZArith String Ascii List Bool Lia.
From Stdlib Require Import Permutation Sorted.
From Stdlib Require Import DecimalString.
From Stdlib Require Import PrimFloat SpecFloat FloatOps FloatAxioms Uint63.
Import ListNotations.

Local Open Scope list_scope.
Local Open Scope string_scope.

(* ================================================================== *)
(** * Host language: numbers                                            *)
(* ================================================================== *)

Module JS.

Definition number := float.

(** [isNaN] on a number. *)
Definition isNaN (x : number) : bool := PrimFloat.is_nan x.

(** Truthiness of a number, as used by [||]: [0], [-0] and [NaN] are falsy. *)
Definition truthy (x : number) : bool :=
  negb (PrimFloat.is_nan x || PrimFloat.eqb x 0%float).

(** [x || d] where [x] is a number that may be [undefined]. *)
Definition or_else (x : option number) (d : number) : number :=
  match x with
  | Some v => if truthy v then v else d
  | None => d
  end.

(** [x ?? d]: only [undefined]/[null] select the default. *)
Definition nullish {A : Type} (x : option A) (d : A) : A :=
  match x with
  | Some v => v
  | None => d
  end.

(** The number with the mathematical value [z], for [|z| < 2^53]. *)
Definition of_Z (z : Z) : number :=
  match z with
  | Z0 => 0%float
  | Zpos _ => PrimFloat.of_uint63 (Uint63.of_Z z)
  | Zneg _ => PrimFloat.opp (PrimFloat.of_uint63 (Uint63.of_Z (Z.opp z)))
  end.

(** [array.length] as a number. *)
Definition of_nat (n : nat) : number := of_Z (Z.of_nat n).

(** [Math.round]: the nearest integer, ties towards plus infinity; [NaN],
    the infinities and the zeros are returned unchanged, and a negative
    argument not below [-0.5] gives [-0]. *)
Definition Math_round (x : number) : number :=
  match Prim2SF x with
  | S754_finite s m e =>
      if (0 <=? e)%Z then x
      else
        let d := (2 ^ (- e))%Z in
        let sm := if s then Z.neg m else Z.pos m in
        let n := ((2 * sm + d) / (2 * d))%Z in
        if (n =? 0)%Z then (if s then (-0)%float else 0%float) else of_Z n
  | _ => x
  end.

(** [Math.max(a, b)] on two numbers. *)
Definition Math_max (a b : number) : number :=
  if PrimFloat.is_nan a || PrimFloat.is_nan b then PrimFloat.nan
  else if PrimFloat.ltb a b then b
  else if PrimFloat.ltb b a then a
  else if PrimFloat.get_sign a then b else a.

(** The number nearest to the positive rational [p / q] (round to nearest,
    ties to even): the value of a decimal literal. *)
Definition nearest (p q : Z) : number :=
  match p with
  | Zpos _ =>
      let '(m, e, l) := SFdiv_core_binary prec emax p 0 q 0 in
      SF2Prim (binary_round_aux prec emax false m e l)
  | _ => 0%float
  end.

(** ** [String(x)]: Number::toString in radix 10 *)

Definition digits (z : Z) : string :=
  NilZero.string_of_uint (N.to_uint (Z.to_N z)).

Fixpoint zeros (n : nat) : string :=
  match n with
  | O => ""
  | S k => String "0" (zeros k)
  end.

(** [p / q < 10 ^ n] for positive [p], [q]. *)
Definition below_pow10 (p q n : Z) : bool :=
  if (0 <=? n)%Z then (p <? q * 10 ^ n)%Z else (p * 10 ^ (- n) <? q)%Z.

(** The least [n >= lo] with [p / q < 10 ^ n]. *)
Fixpoint least_pow10 (fuel : nat) (p q lo : Z) : Z :=
  match fuel with
  | O => lo
  | S k => if below_pow10 p q lo then lo else least_pow10 k p q (lo + 1)
  end.

(** The [n] with [10 ^ (n - 1) <= p / q < 10 ^ n]; the search starts just
    below the estimate that the binary logarithm gives. *)
Definition decimal_exponent (p q : Z) : Z :=
  let b := (Z.log2 p - Z.log2 q)%Z in
  least_pow10 16 p q (b * 30103 / 100000 - 3).

(** [p / q * 10 ^ j] as a fraction. *)
Definition scale10 (p q j : Z) : Z * Z :=
  if (0 <=? j)%Z then (p * 10 ^ j, q)%Z else (p, q * 10 ^ (- j))%Z.

(** Does the decimal [s * 10 ^ (n - k)] read back as [x]? *)
Definition reads_back (x : number) (s n k : Z) : bool :=
  let '(a, b) := scale10 s 1 (n - k) in
  PrimFloat.eqb (nearest a b) x.

(** The [k]-digit decimals next to [p / q] (whose decimal exponent is [n]):
    the one below, and the one above with a carry into the next exponent
    when it reaches [10 ^ k]. Returns the pair [(s, n)] that reads back as
    [x], the nearer one when both do. *)
Definition candidate (x : number) (p q n k : Z) : option (Z * Z) :=
  let '(a, b) := scale10 p q (k - n) in
  let lo := (a / b)%Z in
  let hi := (lo + 1)%Z in
  let up := if (hi =? 10 ^ k)%Z then (10 ^ (k - 1), n + 1)%Z else (hi, n) in
  let ok_lo := reads_back x lo n k in
  let ok_up := reads_back x (fst up) (snd up) k in
  (* distance to the lower neighbour against distance to the upper one *)
  let r := (a - lo * b)%Z in
  let lower_is_nearer :=
    ((2 * r <? b) || ((2 * r =? b) && Z.even lo))%Z in
  match ok_lo, ok_up with
  | true, true => Some (if lower_is_nearer then (lo, n) else up)
  | true, false => Some (lo, n)
  | false, true => Some up
  | false, false => None
  end.

(** The shortest digit string [s] (of [k] digits) and exponent [n] such that
    [s * 10 ^ (n - k)] reads back as [x]; [k] runs from [17 - fuel + 1]. *)
Fixpoint shortest (fuel : nat) (x : number) (p q n k : Z) : Z * Z * Z :=
  match fuel with
  | O => (0, n, k)%Z
  | S f =>
      match candidate x p q n k with
      | Some (s, n') => (s, n', k)
      | None => shortest f x p q n (k + 1)
      end
  end.

(** Layout of the digits [s] ([k] of them) with decimal exponent [n]. *)
Definition layout (s n k : Z) : string :=
  let ds := digits s in
  if ((k <=? n) && (n <=? 21))%Z then
    ds ++ zeros (Z.to_nat (n - k))
  else if ((0 <? n) && (n <=? 21))%Z then
    substring 0 (Z.to_nat n) ds ++ "." ++
    substring (Z.to_nat n) (Z.to_nat (k - n)) ds
  else if ((-6 <? n) && (n <=? 0))%Z then
    "0." ++ zeros (Z.to_nat (- n)) ++ ds
  else
    let e := (n - 1)%Z in
    let exponent := (if (e <? 0)%Z then "-" else "+") ++ digits (Z.abs e) in
    if (k =? 1)%Z then ds ++ "e" ++ exponent
    else substring 0 1 ds ++ "." ++
         substring 1 (Z.to_nat (k - 1)) ds ++ "e" ++ exponent.

Definition Number_toString (x : number) : string :=
  match Prim2SF x with
  | S754_nan => "NaN"
  | S754_zero _ => "0"
  | S754_infinity s => if s then "-Infinity" else "Infinity"
  | S754_finite s m e =>
      let '(p, q) :=
        if (0 <=? e)%Z then (Z.pos m * 2 ^ e, 1)%Z
        else (Z.pos m, 2 ^ (- e))%Z in
      let n := decimal_exponent p q in
      let '(d, n', k) := shortest 17 (PrimFloat.abs x) p q n 1 in
      (if s then "-" else "") ++ layout d n' k
  end.

(* ------------------------------------------------------------------ *)
(** ** Strings                                                          *)
(* ------------------------------------------------------------------ *)

Definition in_range (lo hi : N) (c : ascii) : bool :=
  let n := N_of_ascii c in ((lo <=? n) && (n <=? hi))%N.

Definition is_digit (c : ascii) : bool := in_range 48 57 c.

(** The class [\s]: white space and line terminators. *)
Definition is_space (c : ascii) : bool :=
  in_range 9 13 c || in_range 32 32 c || in_range 160 160 c.

Definition is_line_terminator (c : ascii) : bool :=
  in_range 10 10 c || in_range 13 13 c.

(** Lower-case mapping of one code unit: the letters [A-Z] and the accented
    capitals U+00C0 to U+00DE (the multiplication sign apart). *)
Definition lower (c : ascii) : ascii :=
  if in_range 65 90 c || (in_range 192 222 c && negb (in_range 215 215 c))
  then ascii_of_N (N_of_ascii c + 32)
  else c.

Fixpoint toLowerCase (s : string) : string :=
  match s with
  | "" => ""
  | String c r => String (lower c) (toLowerCase r)
  end.

Fixpoint trimStart (s : string) : string :=
  match s with
  | "" => ""
  | String c r => if is_space c then trimStart r else s
  end.

Fixpoint trimEnd (s : string) : string :=
  match s with
  | "" => ""
  | String c r =>
      match trimEnd r with
      | "" => if is_space c then "" else String c ""
      | r' => String c r'
      end
  end.

Definition trim (s : string) : string := trimEnd (trimStart s).

Fixpoint all_chars (p : ascii -> bool) (s : string) : bool :=
  match s with
  | "" => true
  | String c r => p c && all_chars p r
  end.

Fixpoint map_chars (f : ascii -> ascii) (s : string) : string :=
  match s with
  | "" => ""
  | String c r => String (f c) (map_chars f r)
  end.

(** [Array.prototype.join]. *)
Fixpoint join (sep : string) (l : list string) : string :=
  match l with
  | [] => ""
  | [x] => x
  | x :: r => x ++ sep ++ join sep r
  end.

(** ** [new RegExp(source, 'gi')] and [String.prototype.replace]

    Only sources that are literal patterns are modelled: every character
    matches itself, case-insensitively. A source with a syntax character of
    the pattern language is outside the model. *)

Definition is_syntax_character (c : ascii) : bool :=
  existsb (Ascii.eqb c)
    ["^"; "$"; "\"; "."; "*"; "+"; "?"; "("; ")"; "["; "]"; "{"; "}"; "|"]%char.

Definition RegExp_literal (source : string) : bool :=
  all_chars (fun c => negb (is_syntax_character c)) source.

(** Does the literal pattern match at the start of [s], ignoring case? *)
Fixpoint matches_at (pattern s : string) : bool :=
  match pattern, s with
  | "", _ => true
  | String _ _, "" => false
  | String p pr, String c r => Ascii.eqb (lower p) (lower c) && matches_at pr r
  end.

(** Left-to-right replacement of the non-overlapping matches of a non-empty
    literal pattern; [skip] counts the characters of a match still to drop. *)
Fixpoint replace_from (pattern replacement : string) (skip : nat) (s : string)
  : string :=
  match s with
  | "" => ""
  | String c r =>
      match skip with
      | S k => replace_from pattern replacement k r
      | O =>
          if matches_at pattern s
          then replacement ++
               replace_from pattern replacement (String.length pattern - 1) r
          else String c (replace_from pattern replacement 0 r)
      end
  end.

(** The empty pattern matches before every character and at the end. *)
Fixpoint replace_empty (replacement s : string) : string :=
  match s with
  | "" => replacement
  | String c r => replacement ++ String c (replace_empty replacement r)
  end.

(** [s.replace(new RegExp(pattern, 'gi'), replacement)] for a literal
    [pattern] and a [replacement] without [$]. *)
Definition replace_all (pattern replacement s : string) : string :=
  match pattern with
  | "" => replace_empty replacement s
  | _ => replace_from pattern replacement 0 s
  end.

(* ------------------------------------------------------------------ *)
(** ** Objects used as dictionaries                                     *)
(* ------------------------------------------------------------------ *)

(** The entries of an object, in insertion order. *)
Definition object (V : Type) := list (string * V).

Section Objects.
Context {V : Type}.

(** [o[key]] *)
Fixpoint get (key : string) (o : object V) : option V :=
  match o with
  | [] => None
  | (k, v) :: r => if String.eqb key k then Some v else get key r
  end.

(** [o[key] = v]: an existing property keeps its place. *)
Fixpoint set (key : string) (v : V) (o : object V) : object V :=
  match o with
  | [] => [(key, v)]
  | (k, w) :: r =>
      if String.eqb key k then (k, v) :: r else (k, w) :: set key v r
  end.

(** Assignments in sequence; also [{...o, ...entries}]. *)
Definition assign (o : object V) (entries : list (string * V)) : object V :=
  fold_left (fun acc kv => set (fst kv) (snd kv) acc) entries o.
End Objects.

(** A canonical numeric string below [2^32 - 1] is an array index. *)
Fixpoint decimal_value (s : string) (acc : N) : N :=
  match s with
  | "" => acc
  | String c r => decimal_value r (acc * 10 + (N_of_ascii c - 48))%N
  end.

Definition array_index (s : string) : option N :=
  match s with
  | "" => None
  | String c r =>
      if all_chars is_digit s
         && (negb (Ascii.eqb c "0") || String.eqb r "")
         && (String.length s <=? 10)%nat
      then let n := decimal_value s 0 in
           if (n <? 4294967295)%N then Some n else None
      else None
  end.

Fixpoint insert_index (n : N) (k : string) (l : list (N * string))
  : list (N * string) :=
  match l with
  | [] => [(n, k)]
  | (m, h) :: t =>
      if (n <? m)%N then (n, k) :: l else (m, h) :: insert_index n k t
  end.

Fixpoint partition_keys (keys : list string)
  : list (N * string) * list string :=
  match keys with
  | [] => ([], [])
  | k :: r =>
      let '(idx, str) := partition_keys r in
      match array_index k with
      | Some n => (insert_index n k idx, str)
      | None => (idx, k :: str)
      end
  end.

(** [Object.keys(o)]: array indices in ascending order, then the other keys
    in insertion order. *)
Definition Object_keys {V : Type} (o : object V) : list string :=
  let '(idx, str) := partition_keys (map fst o) in
  (map snd idx ++ str)%list.

(** [Object.entries(o)] *)
Definition Object_entries {V : Type} (o : object V) : list (string * V) :=
  flat_map (fun k => match get k o with
                     | Some v => [(k, v)]
                     | None => []
                     end)
           (Object_keys o).

(** [keys.sort((a, b) => b.length - a.length)]: a stable sort, longest
    first. [insert_longest] puts [k] in front of the first key that is not
    longer. *)
Fixpoint insert_longest (k : string) (l : list string) : list string :=
  match l with
  | [] => [k]
  | h :: t =>
      if (String.length h <=? String.length k)%nat then k :: l
      else h :: insert_longest k t
  end.

Definition sort_longest_first (keys : list string) : list string :=
  fold_right insert_longest [] keys.

End JS.

(* ================================================================== *)
(** * Host language: running an arithmetic function body                *)
(* ================================================================== *)

(** [Engine.run r] is the outcome of

      [new Function(`"use strict"; return (${r})`)()]

    for a residue [r]. The text between [return] and the end is read as one
    expression: numeric literals (strict mode: no leading zero), the binary
    and unary operators [+ - * /], parentheses, calls (which raise, a number
    not being callable), the update operators (never applicable here) and
    comments. Three constructs are outside the model and give [None]: a line
    terminator (automatic semicolon insertion), the exponentiation operator
    (its result is implementation-approximated) and a regular expression
    literal. *)

Module Engine.
Import JS.

Inductive token :=
| TNum (v : number)
| TPlus | TMinus | TStar | TSlash
| TOpen | TClose
| TUpdate      (* ++ or -- *)
| TDot.        (* a dot that starts no number *)

Inductive lexed :=
| Tokens (ts : list token)
| LexError
| Unmodelled.

Definition push (t : token) (l : lexed) : lexed :=
  match l with
  | Tokens ts => Tokens (t :: ts)
  | _ => l
  end.

(** The longest prefix of digits, and what follows it. *)
Fixpoint span_digits (s : string) : string * string :=
  match s with
  | "" => ("", "")
  | String c r =>
      if is_digit c
      then let '(d, rest) := span_digits r in (String c d, rest)
      else ("", s)
  end.

(** The value of the decimal literal [ip.fp]. *)
Definition decimal_literal (ip fp : string) : number :=
  nearest (Z.of_N (decimal_value (ip ++ fp) 0))
          (10 ^ Z.of_nat (String.length fp)).

(** The text after the first [*/], if any. *)
Fixpoint after_comment (s : string) : option string :=
  match s with
  | "" => None
  | String c r =>
      match r with
      | String d r' =>
          if Ascii.eqb c "*" && Ascii.eqb d "/" then Some r'
          else after_comment r
      | "" => None
      end
  end.

Definition tail (s : string) : string :=
  match s with
  | String _ r => r
  | "" => ""
  end.

Definition next_is (c : ascii) (s : string) : bool :=
  match s with
  | String d _ => Ascii.eqb c d
  | "" => false
  end.

(** [operand] tells whether the previous token ends an operand, in which
    case a slash is a division. The text holds no line terminator (see
    [run]), so a line comment runs to the end of the text. *)
Fixpoint lex (fuel : nat) (operand : bool) (s : string) : lexed :=
  match fuel with
  | O => Unmodelled
  | S f =>
      match s with
      | "" => Tokens []
      | String c r =>
          if is_space c then lex f operand r
          else if is_digit c then
            let '(ip, r1) := span_digits s in
            if Ascii.eqb c "0" && (1 <? String.length ip)%nat then LexError
            else
              match r1 with
              | String "." r2 =>
                  let '(fp, r3) := span_digits r2 in
                  push (TNum (decimal_literal ip fp)) (lex f true r3)
              | _ => push (TNum (decimal_literal ip "")) (lex f true r1)
              end
          else if Ascii.eqb c "." then
            let '(fp, r1) := span_digits r in
            match fp with
            | "" => push TDot (lex f false r)
            | _ => push (TNum (decimal_literal "" fp)) (lex f true r1)
            end
          else if Ascii.eqb c "(" then push TOpen (lex f false r)
          else if Ascii.eqb c ")" then push TClose (lex f true r)
          else if Ascii.eqb c "+" then
            if next_is "+" r then push TUpdate (lex f false (tail r))
            else push TPlus (lex f false r)
          else if Ascii.eqb c "-" then
            if next_is "-" r then push TUpdate (lex f false (tail r))
            else push TMinus (lex f false r)
          else if Ascii.eqb c "*" then
            if next_is "*" r then Unmodelled
            else push TStar (lex f false r)
          else if Ascii.eqb c "/" then
            if next_is "/" r then Tokens []
            else if next_is "*" r then
              match after_comment (tail r) with
              | Some rest => lex f operand rest
              | None => LexError
              end
            else if operand then push TSlash (lex f false r)
            else Unmodelled
          else Unmodelled
      end
  end.

Inductive binop := Add | Sub | Mul | Div.

Inductive expr :=
| Lit (v : number)
| Pos (e : expr)
| Neg (e : expr)
| Bin (op : binop) (a b : expr)
| Call (callee : expr)                    (* callee() *)
| CallWith (callee argument : expr).      (* callee(argument) *)

Inductive parsed :=
| Parsed (e : expr) (rest : list token)
| SyntaxError
| OutOfFuel.

Definition and_then (p : parsed) (k : expr -> list token -> parsed) : parsed :=
  match p with
  | Parsed e rest => k e rest
  | _ => p
  end.

(** Recursive descent over the grammar
      Additive       ::=  Multiplicative { [+ or -] Multiplicative }
      Multiplicative ::=  Unary { [times or slash] Unary }
      Unary          ::=  [+ or -] Unary  |  Primary { Arguments }
      Primary        ::=  Number  |  [open] Additive [close]
      Arguments      ::=  [open] [close]  |  [open] Additive [close]    *)
Fixpoint additive (fuel : nat) (ts : list token) : parsed :=
  match fuel with
  | O => OutOfFuel
  | S f => and_then (multiplicative f ts) (additive_rest f)
  end
with additive_rest (fuel : nat) (lhs : expr) (ts : list token) : parsed :=
  match fuel with
  | O => OutOfFuel
  | S f =>
      match ts with
      | TPlus :: r =>
          and_then (multiplicative f r)
                   (fun e => additive_rest f (Bin Add lhs e))
      | TMinus :: r =>
          and_then (multiplicative f r)
                   (fun e => additive_rest f (Bin Sub lhs e))
      | _ => Parsed lhs ts
      end
  end
with multiplicative (fuel : nat) (ts : list token) : parsed :=
  match fuel with
  | O => OutOfFuel
  | S f => and_then (unary f ts) (multiplicative_rest f)
  end
with multiplicative_rest (fuel : nat) (lhs : expr) (ts : list token) : parsed :=
  match fuel with
  | O => OutOfFuel
  | S f =>
      match ts with
      | TStar :: r =>
          and_then (unary f r)
                   (fun e => multiplicative_rest f (Bin Mul lhs e))
      | TSlash :: r =>
          and_then (unary f r)
                   (fun e => multiplicative_rest f (Bin Div lhs e))
      | _ => Parsed lhs ts
      end
  end
with unary (fuel : nat) (ts : list token) : parsed :=
  match fuel with
  | O => OutOfFuel
  | S f =>
      match ts with
      | TPlus :: r => and_then (unary f r) (fun e => Parsed (Pos e))
      | TMinus :: r => and_then (unary f r) (fun e => Parsed (Neg e))
      | TNum v :: r => arguments f (Lit v) r
      | TOpen :: r =>
          and_then (additive f r)
                   (fun e rest =>
                      match rest with
                      | TClose :: rest' => arguments f e rest'
                      | _ => SyntaxError
                      end)
      | _ => SyntaxError
      end
  end
with arguments (fuel : nat) (callee : expr) (ts : list token) : parsed :=
  match fuel with
  | O => OutOfFuel
  | S f =>
      match ts with
      | TOpen :: TClose :: r => arguments f (Call callee) r
      | TOpen :: r =>
          and_then (additive f r)
                   (fun e rest =>
                      match rest with
                      | TClose :: rest' =>
                          arguments f (CallWith callee e) rest'
                      | _ => SyntaxError
                      end)
      | _ => Parsed callee ts
      end
  end.

Definition apply (op : binop) (x y : number) : number :=
  match op with
  | Add => PrimFloat.add x y
  | Sub => PrimFloat.sub x y
  | Mul => PrimFloat.mul x y
  | Div => PrimFloat.div x y
  end.

(** The value of an expression; [None] when its evaluation raises. *)
Fixpoint eval (e : expr) : option number :=
  match e with
  | Lit v => Some v
  | Pos a => eval a
  | Neg a => option_map PrimFloat.opp (eval a)
  | Bin op a b =>
      match eval a, eval b with
      | Some x, Some y => Some (apply op x y)
      | _, _ => None
      end
  | Call _ | CallWith _ _ => None
  end.

Inductive completion :=
| Returns (v : number)
| Throws.

Definition run (residue : string) : option completion :=
  let text := "(" ++ residue ++ ")" in
  if negb (all_chars (fun c => negb (is_line_terminator c)) text) then None
  else
  match lex (S (String.length text)) false text with
  | Unmodelled => None
  | LexError => Some Throws
  | Tokens ts =>
      match additive (6 * List.length ts + 6) ts with
      | OutOfFuel => None
      | SyntaxError => Some Throws
      | Parsed _ (_ :: _) => Some Throws
      | Parsed e [] =>
          Some match eval e with
               | Some v => Returns v
               | None => Throws
               end
      end
  end.

End Engine.

(* ================================================================== *)
(** * Data model (the interfaces of [types])                            *)
(* ================================================================== *)

(** Only the fields that the four functions read are kept; each record
    lives in a module named after its interface. A field declared
    [number] is a number: [undefined] arises only where the interface
    marks a field optional, and is [None] there. *)

Import JS.

Definition ExpressionContext := object number.

(** [string | number] *)
Inductive expression :=
| Str (s : string)
| Num (n : number).

Module Material.
Record t := mk { id : string; thickness : number }.
End Material.

Inductive ZoneType :=
| drawer | door | shelf | opening | fixed_shelf | appliance_space | divider.

Module PatternZone.
Record t := mk {
  id : string;
  type : ZoneType;
  name : string;
  heightExpression : expression }.
End PatternZone.

Module PatternColumn.
Record t := mk {
  id : string;
  name : string;
  widthPercentage : number;
  zones : list PatternZone.t }.
End PatternColumn.

Inductive Grain := grain_length | grain_width | grain_none.

(** [boolean | string], possibly absent *)
Inductive EdgeFlag :=
| flag_boolean (b : bool)
| flag_string (s : string).

Module EdgeBanding.
Record t := mk {
  length1 : option EdgeFlag;
  length2 : option EdgeFlag;
  width1 : option EdgeFlag;
  width2 : option EdgeFlag }.
End EdgeBanding.

Module PartRule.
Record t := mk {
  id : string;
  partName : string;
  lengthExpression : string;
  widthExpression : string;
  quantityExpression : string;
  materialId : option string;
  material : option string;
  grain : option Grain;
  edgeBanding : option EdgeBanding.t }.
End PartRule.

(** One role of [CabinetPattern.materials]. *)
Module RoleMaterial.
Record t := mk { materialId : string; thickness : number }.
End RoleMaterial.

Module PatternMaterials.
Record t := mk {
  carcass : option RoleMaterial.t;
  back : option RoleMaterial.t;
  front : option RoleMaterial.t;
  shelf : option RoleMaterial.t;
  edgeBanding : option RoleMaterial.t }.
End PatternMaterials.

Module CabinetPattern.
Record t := mk {
  columns : option (list PatternColumn.t);
  columnProportions : option (list number);
  zones : list PatternZone.t;
  partRules : list PartRule.t;
  materials : option PatternMaterials.t;
  variables : option (object number) }.
End CabinetPattern.

Module Dimensions.
Record t := mk { height : number; width : number; depth : number }.
End Dimensions.

Module GlobalSettings.
Record t := mk {
  materialThickness : number;
  backPanelThickness : number;
  backPanelGrooveDepth : number;
  defaultEdgeBanding : number }.
End GlobalSettings.

Inductive SideConstruction :=
| sides_on_bottom | bottom_between_sides | all_between.

Inductive BackPanelMethod :=
| overlay | inset_groove | inset_rebate.

Module RuleSet.
Record Construction := mkConstruction {
  sideConstruction : SideConstruction;
  backPanelMethod : BackPanelMethod }.
Record Offsets := mkOffsets {
  drawerFrontGap : number;
  doorGap : number;
  shelfInset : number;
  drawerSlideOffset : number;
  backPanelThickness : number;
  backGrooveDepth : number }.
Record t := mk { construction : Construction; offsets : Offsets }.
End RuleSet.

Module CutPart.
Record t := mk {
  partName : string;
  length : number;
  width : number;
  quantity : number;
  materialId : option string;
  material : option string;
  grain : option Grain;
  edgeBanding : option string }.
End CutPart.

(** The part of [CabinetInstance] that the cut list of the header reads. *)
Module CabinetInstance.
Record t := mk {
  name : string;
  patternId : string;
  dimensions : Dimensions.t;
  zoneProportions : option (list number);
  variableOverrides : option (object number);
  materialOverrides : option (object string) }.
End CabinetInstance.

(* ================================================================== *)
(** * Safe expression evaluator                                         *)
(* ================================================================== *)

Local Open Scope float_scope.

(** One round of the substitution loop: every occurrence of [key] is
    replaced by [String(value)]. The pattern is [key.replace(/_/g, '_')],
    which is [key]; a property whose value is [undefined] is skipped. *)
Definition substitute_key (context : ExpressionContext)
  (processedExpr : option string) (key : string) : option string :=
  match processedExpr, get key context with
  | Some e, Some value =>
      if RegExp_literal key
      then Some (replace_all key (Number_toString value) e)
      else None
  | Some e, None => Some e
  | None, _ => None
  end.

(** The residue: the prepared text after all keys, longest first, have been
    substituted. *)
Definition substitute (processedExpr : string) (context : ExpressionContext)
  : option string :=
  let sortedKeys := sort_longest_first (Object_keys context) in
  fold_left (substitute_key context) sortedKeys (Some processedExpr).

Definition safe_character (c : ascii) : bool :=
  is_digit c || is_space c ||
  existsb (Ascii.eqb c) ["+"; "-"; "*"; "/"; "("; ")"; "."]%char.

(** [/^[\d\s+\-*/().]+$/.test(s)] *)
Definition safePattern (s : string) : bool :=
  negb (String.eqb s "") && all_chars safe_character s.

(** [evaluateExpression(expression, context)]. The result is [Some v] when
    the call returns [v], and [None] when a context key is not a literal
    pattern or the residue is outside the fragment of [Engine.run]. In the
    modelled fragment the value of the function body is a number, so
    [typeof result === 'number'] holds; an exception of the function body
    lands in the [catch] branch. *)
Definition evaluateExpression (expression : expression)
  (context : ExpressionContext) : option number :=
  match expression with
  | Num n => Some n
  | Str text =>
      match substitute (trim (toLowerCase text)) context with
      | None => None
      | Some processedExpr =>
          if negb (safePattern processedExpr) then Some 0
          else
            match Engine.run processedExpr with
            | None => None
            | Some (Engine.Returns result) =>
                Some (if negb (isNaN result)
                      then Math_round (result * 100) / 100
                      else 0)
            | Some Engine.Throws => Some 0
            end
      end
  end.

(* ================================================================== *)
(** * Expression context builder                                        *)
(* ================================================================== *)

(** [pattern.materials?.<role>?.thickness] *)
Definition role_thickness (pattern : CabinetPattern.t)
  (role : PatternMaterials.t -> option RoleMaterial.t) : option number :=
  match CabinetPattern.materials pattern with
  | Some m => option_map RoleMaterial.thickness (role m)
  | None => None
  end.

(** The four effective thicknesses computed at the head of
    [buildExpressionContext]. *)
Definition materialThickness (settings : GlobalSettings.t)
  (pattern : CabinetPattern.t) : number :=
  nullish (role_thickness pattern PatternMaterials.carcass)
          (GlobalSettings.materialThickness settings).

Definition backPanelThickness (settings : GlobalSettings.t)
  (pattern : CabinetPattern.t) : number :=
  nullish (role_thickness pattern PatternMaterials.back)
          (GlobalSettings.backPanelThickness settings).

Definition frontThickness (settings : GlobalSettings.t)
  (pattern : CabinetPattern.t) : number :=
  nullish (role_thickness pattern PatternMaterials.front)
          (materialThickness settings pattern).

Definition shelfThickness (settings : GlobalSettings.t)
  (pattern : CabinetPattern.t) : number :=
  nullish (role_thickness pattern PatternMaterials.shelf)
          (materialThickness settings pattern).

(** [pattern.columns && pattern.columns.length > 0]: the columns of a
    column-based pattern. *)
Definition column_based (pattern : CabinetPattern.t)
  : option (list PatternColumn.t) :=
  match CabinetPattern.columns pattern with
  | Some (c :: cs) => Some (c :: cs)
  | _ => None
  end.

Definition is_drawer (z : PatternZone.t) : bool :=
  match PatternZone.type z with drawer => true | _ => false end.

Definition is_door (z : PatternZone.t) : bool :=
  match PatternZone.type z with door => true | _ => false end.

Definition is_shelf (z : PatternZone.t) : bool :=
  match PatternZone.type z with shelf | fixed_shelf => true | _ => false end.

(** [zones.filter(p).length], over the columns or over the flat list. *)
Definition zone_count (p : PatternZone.t -> bool) (pattern : CabinetPattern.t)
  : number :=
  match column_based pattern with
  | Some cols =>
      fold_left
        (fun count column =>
           count + of_nat (List.length (filter p (PatternColumn.zones column))))
        cols 0
  | None => of_nat (List.length (filter p (CabinetPattern.zones pattern)))
  end.

(** [ruleSet?.construction.sideConstruction || 'sides-on-bottom'] *)
Definition sideConstruction (ruleSet : option RuleSet.t) : SideConstruction :=
  match ruleSet with
  | Some r => RuleSet.sideConstruction (RuleSet.construction r)
  | None => sides_on_bottom
  end.

(** [ruleSet?.construction.backPanelMethod || 'overlay'] *)
Definition backPanelMethod (ruleSet : option RuleSet.t) : BackPanelMethod :=
  match ruleSet with
  | Some r => RuleSet.backPanelMethod (RuleSet.construction r)
  | None => overlay
  end.

(** The [switch] on the side construction: [(sideHeight, bottomWidth,
    topWidth)]. The enumeration has three values, so the [default] branch
    of the source is never taken. *)
Definition sideDimensions (sc : SideConstruction) (height width t : number)
  : number * number * number :=
  match sc with
  | sides_on_bottom => (height, width - 2 * t, width - 2 * t)
  | bottom_between_sides => (height - t, width, width - 2 * t)
  | all_between => (height - 2 * t, width - 2 * t, width - 2 * t)
  end.

(** [ruleSet?.offsets.<field>] *)
Definition offset (ruleSet : option RuleSet.t)
  (field : RuleSet.Offsets -> number) : option number :=
  option_map (fun r => field (RuleSet.offsets r)) ruleSet.

Fixpoint indexed {A : Type} (i : nat) (l : list A) : list (nat * A) :=
  match l with
  | [] => []
  | x :: r => (i, x) :: indexed (S i) r
  end.

(** [`${index}`] *)
Definition index_string (i : nat) : string := digits (Z.of_nat i).

(** [id.replace(/-/g, '_')] *)
Definition id_name (id : string) : string :=
  map_chars (fun c => if Ascii.eqb c "-" then "_"%char else c) id.

(** The assignments of the column-width loop, in order. *)
Definition columnWidths (pattern : CabinetPattern.t) (internalWidth : number)
  : list (string * number) :=
  match column_based pattern with
  | Some cols =>
      let equal := 1 / of_nat (List.length cols) in
      let columnProportions :=
        nullish (CabinetPattern.columnProportions pattern)
                (map (fun _ => equal) cols) in
      flat_map
        (fun '(index, column) =>
           let proportion :=
             or_else (nth_error columnProportions index) equal in
           let colWidth := Math_round (internalWidth * proportion) in
           [ ("column_" ++ index_string index ++ "_width", colWidth);
             (id_name (PatternColumn.id column) ++ "_width", colWidth) ])
        (indexed 0 cols)
  | None => []
  end.

(** The object literal [context] of [buildExpressionContext]. *)
Definition baseContext (dimensions : Dimensions.t) (settings : GlobalSettings.t)
  (pattern : CabinetPattern.t) (ruleSet : option RuleSet.t)
  : ExpressionContext :=
  let height := Dimensions.height dimensions in
  let width := Dimensions.width dimensions in
  let depth := Dimensions.depth dimensions in
  let backPanelGrooveDepth := GlobalSettings.backPanelGrooveDepth settings in
  let defaultEdgeBanding := GlobalSettings.defaultEdgeBanding settings in
  let materialThickness := materialThickness settings pattern in
  let backPanelThickness := backPanelThickness settings pattern in
  let frontThickness := frontThickness settings pattern in
  let shelfThickness := shelfThickness settings pattern in
  let drawerCount := zone_count is_drawer pattern in
  let doorCount := zone_count is_door pattern in
  let shelfCount := zone_count is_shelf pattern in
  let '(sideHeight, bottomWidth, topWidth) :=
    sideDimensions (sideConstruction ruleSet) height width materialThickness in
  let backWidth :=
    match backPanelMethod ruleSet with
    | overlay => width - 2 * materialThickness
    | _ => width - 2 * materialThickness - 2 * backPanelGrooveDepth
    end in
  let backHeight :=
    match backPanelMethod ruleSet with
    | overlay => height - 2 * materialThickness
    | _ => height - 2 * materialThickness - 2 * backPanelGrooveDepth
    end in
  let drawerFrontGap := or_else (offset ruleSet RuleSet.drawerFrontGap) 3 in
  let doorGap := or_else (offset ruleSet RuleSet.doorGap) 3 in
  let shelfInset := or_else (offset ruleSet RuleSet.shelfInset) 20 in
  let drawerSlideOffset :=
    or_else (offset ruleSet RuleSet.drawerSlideOffset) 12.5 in
  [ ("total_height", height);
    ("total_width", width);
    ("total_depth", depth);
    ("material_thickness", materialThickness);
    ("thickness", materialThickness);
    ("carcass_thickness", materialThickness);
    ("front_thickness", frontThickness);
    ("shelf_thickness", shelfThickness);
    ("back_thickness",
      or_else (offset ruleSet RuleSet.backPanelThickness) backPanelThickness);
    ("back_groove",
      or_else (offset ruleSet RuleSet.backGrooveDepth) backPanelGrooveDepth);
    ("edge_banding", defaultEdgeBanding);
    ("side_height", sideHeight);
    ("bottom_width", bottomWidth);
    ("top_width", topWidth);
    ("back_width", backWidth);
    ("back_height", backHeight);
    ("internal_width", width - 2 * materialThickness);
    ("internal_height", height - 2 * materialThickness);
    ("internal_depth", depth - backPanelGrooveDepth);
    ("drawer_front_gap", drawerFrontGap);
    ("door_gap", doorGap);
    ("shelf_inset", shelfInset);
    ("drawer_slide_offset", drawerSlideOffset);
    ("drawer_count", drawerCount);
    ("door_count", doorCount);
    ("shelf_count", shelfCount);
    ("remaining_height", height - 2 * materialThickness);
    ("column_count",
      or_else (option_map (fun c => of_nat (List.length c))
                          (CabinetPattern.columns pattern)) 1) ].

(** [Object.entries(pattern.variables)], nothing when there are none. *)
Definition patternVariables (pattern : CabinetPattern.t)
  : list (string * number) :=
  match CabinetPattern.variables pattern with
  | Some vars => Object_entries vars
  | None => []
  end.

Definition buildExpressionContext (dimensions : Dimensions.t)
  (settings : GlobalSettings.t) (pattern : CabinetPattern.t)
  (ruleSet : option RuleSet.t) : ExpressionContext :=
  let context := baseContext dimensions settings pattern ruleSet in
  let internalWidth :=
    Dimensions.width dimensions - 2 * materialThickness settings pattern in
  let context := assign context (columnWidths pattern internalWidth) in
  assign context (patternVariables pattern).

(* ================================================================== *)
(** * Material thickness resolution                                     *)
(* ================================================================== *)

Definition getMaterialThickness (materialId : option string)
  (materials : list Material.t) (fallbackThickness : number) : number :=
  match materialId with
  | None | Some "" => fallbackThickness
  | Some id =>
      match find (fun m => String.eqb (Material.id m) id) materials with
      | Some material => Material.thickness material
      | None => fallbackThickness
      end
  end.

(* ================================================================== *)
(** * Main part calculator                                              *)
(* ================================================================== *)

(** [array[i]] read as a number: [undefined] becomes [NaN] in arithmetic. *)
Definition at_index (l : list number) (i : nat) : number :=
  nth i l PrimFloat.nan.

(** The two assignments made for one zone. *)
Definition zoneHeight_entries (indexName : string) (zone : PatternZone.t)
  (zoneHeight : number) : list (string * number) :=
  [ (indexName, zoneHeight);
    (id_name (PatternZone.id zone) ++ "_height", zoneHeight) ].

(** The assignments of the zone-height loops, in order. *)
Definition zoneHeights (pattern : CabinetPattern.t) (internalHeight : number)
  (zoneProportions : option (list number)) : list (string * number) :=
  match column_based pattern with
  | Some cols =>
      flat_map
        (fun '(colIdx, column) =>
           let zones := PatternColumn.zones column in
           let colZoneProportions :=
             map (fun _ => 1 / of_nat (List.length zones)) zones in
           flat_map
             (fun '(zoneIdx, zone) =>
                zoneHeight_entries
                  ("col_" ++ index_string colIdx ++ "_zone_" ++
                   index_string zoneIdx ++ "_height")
                  zone
                  (Math_round
                     (internalHeight * at_index colZoneProportions zoneIdx)))
             (indexed 0 zones))
        (indexed 0 cols)
  | None =>
      let zones := CabinetPattern.zones pattern in
      let equal :=
        map (fun _ => 1 / or_else (Some (of_nat (List.length zones))) 1)
            zones in
      let proportions :=
        match zoneProportions with
        | Some zp =>
            if Nat.eqb (List.length zp) (List.length zones) then zp else equal
        | None => equal
        end in
      flat_map
        (fun '(index, zone) =>
           zoneHeight_entries
             ("zone_" ++ index_string index ++ "_height")
             zone
             (Math_round (internalHeight * at_index proportions index)))
        (indexed 0 zones)
  end.

(** The shared context of [calculateParts], as it stands when the loop over
    the part rules starts. *)
Definition partsContext (pattern : CabinetPattern.t)
  (dimensions : Dimensions.t) (globalSettings : GlobalSettings.t)
  (variableOverrides : option (object number))
  (zoneProportions : option (list number)) (ruleSet : option RuleSet.t)
  : ExpressionContext :=
  let context :=
    buildExpressionContext dimensions globalSettings pattern ruleSet in
  let context :=
    match variableOverrides with
    | Some overrides => assign context (Object_entries overrides)
    | None => context
    end in
  let internalHeight :=
    Dimensions.height dimensions
    - 2 * GlobalSettings.materialThickness globalSettings in
  assign context (zoneHeights pattern internalHeight zoneProportions).

(** Truthiness of an edge flag. *)
Definition flagged (f : option EdgeFlag) : bool :=
  match f with
  | Some (flag_boolean b) => b
  | Some (flag_string s) => negb (String.eqb s "")
  | None => false
  end.

(** The edge banding label of a rule; the empty label becomes [undefined]. *)
Definition edgeBandingLabel (rule : PartRule.t) : option string :=
  let edgeBanding :=
    match PartRule.edgeBanding rule with
    | Some eb =>
        join ", "
          ((if flagged (EdgeBanding.length1 eb) then ["L1"] else []) ++
           (if flagged (EdgeBanding.length2 eb) then ["L2"] else []) ++
           (if flagged (EdgeBanding.width1 eb) then ["W1"] else []) ++
           (if flagged (EdgeBanding.width2 eb) then ["W2"] else []))%list
    | None => ""
    end in
  if String.eqb edgeBanding "" then None else Some edgeBanding.

(** [context.material_thickness]; the property is always there (see
    [material_thickness_defined]). *)
Definition context_material_thickness (context : ExpressionContext) : number :=
  nullish (get "material_thickness" context) PrimFloat.nan.

(** The thickness injected as [part_thickness] for one rule. *)
Definition partThickness (context : ExpressionContext)
  (materialsList : list Material.t) (rule : PartRule.t) : number :=
  getMaterialThickness (PartRule.materialId rule) materialsList
                       (context_material_thickness context).

(** [{ ...context, part_thickness: partThickness }] *)
Definition ruleContext (context : ExpressionContext)
  (materialsList : list Material.t) (rule : PartRule.t) : ExpressionContext :=
  set "part_thickness" (partThickness context materialsList rule) context.

(** The three evaluated formulas of a rule. *)
Record Evaluated := mkEvaluated {
  ev_length : number;
  ev_width : number;
  ev_quantity : number }.

Definition evaluateRule (context : ExpressionContext)
  (materialsList : list Material.t) (rule : PartRule.t) : option Evaluated :=
  let ruleContext := ruleContext context materialsList rule in
  match evaluateExpression (Str (PartRule.lengthExpression rule)) ruleContext,
        evaluateExpression (Str (PartRule.widthExpression rule)) ruleContext,
        evaluateExpression (Str (PartRule.quantityExpression rule)) ruleContext
  with
  | Some length, Some width, Some q =>
      Some (mkEvaluated length width (Math_max 1 (Math_round q)))
  | _, _, _ => None
  end.

(** The body of the loop after the evaluation: the part pushed for the rule,
    or nothing when the rule is skipped. *)
Definition emit (rule : PartRule.t) (e : Evaluated) : list CutPart.t :=
  if (ev_length e <=? 0) || (ev_width e <=? 0) then []
  else
    [ CutPart.mk (PartRule.partName rule)
                 (Math_round (ev_length e))
                 (Math_round (ev_width e))
                 (ev_quantity e)
                 (PartRule.materialId rule)
                 (PartRule.material rule)
                 (PartRule.grain rule)
                 (edgeBandingLabel rule) ].

(** [for (const rule of pattern.partRules) { ... }] *)
Fixpoint processRules (context : ExpressionContext)
  (materialsList : list Material.t) (rules : list PartRule.t)
  : option (list CutPart.t) :=
  match rules with
  | [] => Some []
  | rule :: rest =>
      match evaluateRule context materialsList rule,
            processRules context materialsList rest with
      | Some e, Some parts => Some (emit rule e ++ parts)%list
      | _, _ => None
      end
  end.

Definition calculateParts (pattern : CabinetPattern.t)
  (dimensions : Dimensions.t) (globalSettings : GlobalSettings.t)
  (variableOverrides : option (object number))
  (zoneProportions : option (list number)) (ruleSet : option RuleSet.t)
  (materials : option (list Material.t)) : option (list CutPart.t) :=
  let context :=
    partsContext pattern dimensions globalSettings variableOverrides
                 zoneProportions ruleSet in
  let materialsList := nullish materials [] in
  processRules context materialsList (CabinetPattern.partRules pattern).

(** The call made by the header for one cabinet of the project:

      [calculateParts(pattern, cabinet.dimensions, globalSettings,
         cabinet.variableOverrides, cabinet.zoneProportions, defaultRuleSet,
         materials, cabinet.materialOverrides, undefined, joints)]

    [calculateParts] declares seven parameters, so the last three arguments
    are dropped by the call. *)
Definition headerParts (cabinet : CabinetInstance.t)
  (pattern : CabinetPattern.t) (globalSettings : GlobalSettings.t)
  (defaultRuleSet : option RuleSet.t) (materials : list Material.t)
  : option (list CutPart.t) :=
  calculateParts pattern (CabinetInstance.dimensions cabinet) globalSettings
    (CabinetInstance.variableOverrides cabinet)
    (CabinetInstance.zoneProportions cabinet)
    defaultRuleSet (Some materials).

(* ================================================================== *)
(** * Auxiliary definitions for the statements                          *)
(* ================================================================== *)

(** The names that [buildExpressionContext] assigns after the object
    literal: those derived from the columns, then the pattern variables. *)
Definition reboundNames (pattern : CabinetPattern.t) : list string :=
  (map fst (columnWidths pattern 0) ++ map fst (patternVariables pattern))%list.

Definition rebinds (pattern : CabinetPattern.t) (key : string) : bool :=
  existsb (String.eqb key) (reboundNames pattern).


(** ** Sample data *)

Definition no_materials : option PatternMaterials.t := None.

Definition rule (name length width quantity : string) : PartRule.t :=
  PartRule.mk name name length width quantity None None None None.

Definition flatPattern (zones : list PatternZone.t) (rules : list PartRule.t)
  : CabinetPattern.t :=
  CabinetPattern.mk None None zones rules None None.

(** The pattern of the end-to-end example. *)
Definition lateralPattern : CabinetPattern.t :=
  flatPattern []
    [ rule "Lateral" "total_height - 2*material_thickness"
           "total_depth - back_thickness" "2" ].

Definition cabinet720 : Dimensions.t := Dimensions.mk 720 600 560.

Definition settings18 : GlobalSettings.t := GlobalSettings.mk 18 6 8 1.

(** A rule whose length formula evaluates to a positive fraction of a
    millimetre. *)
Definition tinyPattern : CabinetPattern.t :=
  flatPattern [] [ rule "Tiny" "0.4" "100" "1" ].

(** A cabinet of the project that overrides the material of its sides, with
    the library the override refers to. *)
Definition library : list Material.t :=
  [ Material.mk "mdf-16" 16; Material.mk "mdf-25" 25 ].

Definition thickPattern : CabinetPattern.t :=
  flatPattern [] [ rule "Lateral" "total_height - 2*part_thickness" "100" "2" ].

Definition overriddenCabinet : CabinetInstance.t :=
  CabinetInstance.mk "Base 600" "base" cabinet720 None None
    (Some [ ("Lateral", "mdf-25"); ("carcass", "mdf-25") ]).

(** A two-column pattern, and rule sets for each construction method. *)
Definition twoColumns : CabinetPattern.t :=
  CabinetPattern.mk
    (Some [ PatternColumn.mk "col-left" "Left" 50
              [ PatternZone.mk "zone-a" drawer "A" (Num 200);
                PatternZone.mk "zone-b" drawer "B" (Num 200) ];
            PatternColumn.mk "col-right" "Right" 50
              [ PatternZone.mk "zone-c" door "C" (Num 400) ] ])
    None [] [] None (Some [ ("toe_kick", 100) ]).

Definition ruleSetWith (sc : SideConstruction) : RuleSet.t :=
  RuleSet.mk (RuleSet.mkConstruction sc overlay)
             (RuleSet.mkOffsets 2 2 10 13 6 8).

(** A pattern that declares thicknesses for the carcass (16) and the back
    (8) only. *)
Definition carcass16 : CabinetPattern.t :=
  CabinetPattern.mk None None [] []
    (Some (PatternMaterials.mk (Some (RoleMaterial.mk "mdf-16" 16))
                               (Some (RoleMaterial.mk "hdf-8" 8))
                               None None None))
    None.

(** A rule set all of whose offsets are 0. *)
Definition zeroOffsets : RuleSet.t :=
  RuleSet.mk (RuleSet.mkConstruction sides_on_bottom overlay)
             (RuleSet.mkOffsets 0 0 0 0 0 0).


Definition twoZones : CabinetPattern.t :=
  flatPattern [ PatternZone.mk "zone-top" drawer "Top" (Num 200);
                PatternZone.mk "zone-bottom" door "Bottom" (Num 400) ]
              [ rule "Front" "zone_0_height" "zone_bottom_height" "1" ].



(* ================================================================== *)
(** * Host language: further string and number primitives               *)
(* ================================================================== *)

(** The double quote. *)
Definition dquote : ascii := "034"%char.

(** The line feed. *)
Definition newline : ascii := "010"%char.

(** [s.includes(c)] for a single character. *)
Fixpoint includes_char (c : ascii) (s : string) : bool :=
  match s with
  | "" => false
  | String d r => Ascii.eqb c d || includes_char c r
  end.

(** Is [p] a prefix of [s]? *)
Fixpoint starts_with (p s : string) : bool :=
  match p, s with
  | "", _ => true
  | String _ _, "" => false
  | String a p', String b s' => Ascii.eqb a b && starts_with p' s'
  end.

(** [s.includes(p)] *)
Fixpoint includes (p s : string) : bool :=
  starts_with p s ||
  match s with
  | "" => false
  | String _ r => includes p r
  end.

(** The characters of [s] that satisfy [keep]; [s.replace(/[^...]/g, '')]
    for the class that [keep] decides. *)
Fixpoint keep_chars (keep : ascii -> bool) (s : string) : string :=
  match s with
  | "" => ""
  | String c r =>
      if keep c then String c (keep_chars keep r) else keep_chars keep r
  end.

(** [s.replace] of every double quote by two double quotes. *)
Fixpoint double_quotes (s : string) : string :=
  match s with
  | "" => ""
  | String c r =>
      if Ascii.eqb c dquote
      then String dquote (String dquote (double_quotes r))
      else String c (double_quotes r)
  end.

(** A string of [n] zeros followed by [s], for [s] shorter than [n]. *)
Definition pad_zeros (n : nat) (s : string) : string :=
  zeros (n - String.length s) ++ s.

(** [x.toFixed(f)]: [NaN] and the infinities print as [String(x)], and so
    does a number of magnitude [10^21] or more; otherwise the integer [n]
    nearest to [x * 10^f] (the larger one on a tie) is printed with [f]
    digits after the point. *)
Definition toFixed (x : number) (f : nat) : string :=
  match Prim2SF x with
  | S754_finite s m e =>
      let '(p, q) :=
        if (0 <=? e)%Z then (Z.pos m * 2 ^ e, 1)%Z
        else (Z.pos m, 2 ^ (- e))%Z in
      if (q * 10 ^ 21 <=? p)%Z then Number_toString x
      else
        let n := ((2 * p * 10 ^ Z.of_nat f + q) / (2 * q))%Z in
        let m := pad_zeros (S f) (digits n) in
        let k := String.length m in
        (if s then "-" else "") ++
        (if Nat.eqb f 0 then m
         else substring 0 (k - f) m ++ "." ++ substring (k - f) f m)
  | S754_zero _ =>
      if Nat.eqb f 0 then "0" else "0." ++ zeros f
  | _ => Number_toString x
  end.

(** [parseFloat(s)]: the value of the longest prefix of the trimmed text
    that is a decimal literal (sign, digits, fraction, exponent) or
    [Infinity]; [NaN] when there is none. *)
Definition sign_and_rest (s : string) : bool * string :=
  match s with
  | String "-" r => (true, r)
  | String "+" r => (false, r)
  | _ => (false, s)
  end.

(** The exponent [e[+-]digits] at the start of [s], 0 when there is none. *)
Definition exponent_of (s : string) : Z :=
  match s with
  | String c r =>
      if Ascii.eqb c "e" || Ascii.eqb c "E" then
        let '(negative, r') := sign_and_rest r in
        let '(ds, _) := Engine.span_digits r' in
        match ds with
        | "" => 0%Z
        | _ =>
            let e := Z.of_N (decimal_value ds 0) in
            if negative then (- e)%Z else e
        end
      else 0%Z
  | "" => 0%Z
  end.

Definition parseFloat (s : string) : number :=
  let '(negative, body) := sign_and_rest (trimStart s) in
  let signed (v : number) := if negative then PrimFloat.opp v else v in
  if starts_with "Infinity" body then signed PrimFloat.infinity
  else
    let '(ip, r1) := Engine.span_digits body in
    let '(fp, r2) :=
      match r1 with
      | String "." r => Engine.span_digits r
      | _ => ("", r1)
      end in
    match ip ++ fp with
    | "" => PrimFloat.nan
    | ds =>
        let mantissa := Z.of_N (decimal_value ds 0) in
        let e := (exponent_of r2 - Z.of_nat (String.length fp))%Z in
        signed (if (0 <=? e)%Z then nearest (mantissa * 10 ^ e) 1
                else nearest mantissa (10 ^ (- e)))
    end.

(* ================================================================== *)
(** * Cut list utilities                                                *)
(* ================================================================== *)

(** A [CutPart] together with the tracking field that the utilities below
    read or write. *)
Module ListedPart.
Record t := mk { part : CutPart.t; cabinetName : option string }.
End ListedPart.

(** [s || d] for a string that may be [undefined]: the empty string is
    falsy. *)
Definition string_or (s : option string) (d : string) : string :=
  match s with
  | None | Some "" => d
  | Some v => v
  end.

(** [flattenProjectToCutList]: every part of every cabinet, labelled with
    the name of its cabinet. *)
Definition flattenProjectToCutList
  (cabinets : list (string * list ListedPart.t)) : list ListedPart.t :=
  flat_map
    (fun '(name, parts) =>
       map (fun p => ListedPart.mk (ListedPart.part p) (Some name)) parts)
    cabinets.

(** The key under which [consolidateParts] files a part. *)
Definition consolidationKey (p : ListedPart.t) : string :=
  let part := ListedPart.part p in
  CutPart.partName part ++ "|" ++
  Number_toString (CutPart.length part) ++ "|" ++
  Number_toString (CutPart.width part) ++ "|" ++
  string_or (CutPart.material part) "main".

(** [existing.quantity += quantity] *)
Definition add_quantity (existing : ListedPart.t) (quantity : number)
  : ListedPart.t :=
  let part := ListedPart.part existing in
  ListedPart.mk
    (CutPart.mk (CutPart.partName part) (CutPart.length part)
                (CutPart.width part) (CutPart.quantity part + quantity)
                (CutPart.materialId part) (CutPart.material part)
                (CutPart.grain part) (CutPart.edgeBanding part))
    (ListedPart.cabinetName existing).

(** One round of the loop of [consolidateParts] over the [Map], whose
    entries are kept in insertion order. *)
Definition consolidate_step (consolidated : object ListedPart.t)
  (part : ListedPart.t) : object ListedPart.t :=
  let key := consolidationKey part in
  match get key consolidated with
  | Some existing =>
      set key
          (add_quantity existing (CutPart.quantity (ListedPart.part part)))
          consolidated
  | None => set key part consolidated
  end.

Definition consolidateParts (parts : list ListedPart.t) : list ListedPart.t :=
  map snd (fold_left consolidate_step parts []).

(** ** CSV export *)

Definition escapeCSV (str : string) : string :=
  if includes_char "," str || includes_char dquote str
     || includes_char newline str
  then String dquote (double_quotes str ++ String dquote "")
  else str.

Inductive ExportFormat := cutlist_optimizer | generic_csv | excel | pdf.

Module ExportOptions.
Record t := mk {
  includeEdgeBanding : bool;
  groupByMaterial : bool;
  includeLabels : bool;
  format : ExportFormat }.
End ExportOptions.

Definition grain_name (g : option Grain) : string :=
  match g with
  | Some grain_length => "length"
  | Some grain_width => "width"
  | Some grain_none | None => "none"
  end.

Section CsvExport.

(** [a.localeCompare(b)]: collation is locale data, so the comparison is a
    parameter of the export. *)
Variable localeCompare : string -> string -> Z.

(** [sortedParts.sort(compare)]: the sort is stable; [insert_sorted] puts a
    part in front of the first part that does not come before it. For a
    comparison that is not consistent the order of the result is left to
    the implementation; the model then still gives a permutation. *)
Fixpoint insert_sorted (p : ListedPart.t) (l : list ListedPart.t)
  : list ListedPart.t :=
  match l with
  | [] => [p]
  | q :: r =>
      if (localeCompare
            (string_or (CutPart.material (ListedPart.part p)) "Main")
            (string_or (CutPart.material (ListedPart.part q)) "Main")
          <=? 0)%Z
      then p :: l
      else q :: insert_sorted p r
  end.

(** The order in which the rows are written. *)
Definition sortedParts (options : ExportOptions.t)
  (parts : list ListedPart.t) : list ListedPart.t :=
  if ExportOptions.groupByMaterial options
  then fold_right insert_sorted [] parts
  else parts.

(** The header row. *)
Definition csvHeaders (options : ExportOptions.t) : list string :=
  match ExportOptions.format options with
  | cutlist_optimizer =>
      (["Name"; "Length"; "Width"; "Qty"] ++
       (if ExportOptions.includeLabels options then ["Label"] else []))%list
  | _ =>
      ["Part Name"; "Length (mm)"; "Width (mm)"; "Quantity"; "Material";
       "Grain"; "Edge Banding"; "Cabinet"]
  end.

(** The row of one part, as the array that is joined with commas. *)
Definition csvRow (options : ExportOptions.t) (p : ListedPart.t)
  : list string :=
  let part := ListedPart.part p in
  match ExportOptions.format options with
  | cutlist_optimizer =>
      ([ escapeCSV (CutPart.partName part);
         Number_toString (CutPart.length part);
         Number_toString (CutPart.width part);
         Number_toString (CutPart.quantity part) ] ++
       match ListedPart.cabinetName p with
       | Some (String c r) =>
           if ExportOptions.includeLabels options
           then [escapeCSV (String c r)] else []
       | _ => []
       end)%list
  | _ =>
      [ escapeCSV (CutPart.partName part);
        Number_toString (CutPart.length part);
        Number_toString (CutPart.width part);
        Number_toString (CutPart.quantity part);
        escapeCSV (string_or (CutPart.material part) "Main Material");
        grain_name (CutPart.grain part);
        (if ExportOptions.includeEdgeBanding options
         then escapeCSV (string_or (CutPart.edgeBanding part) "") else "");
        escapeCSV (string_or (ListedPart.cabinetName p) "") ]
  end.

Definition generateCutListCSV (parts : list ListedPart.t)
  (options : ExportOptions.t) : string :=
  let lines :=
    join "," (csvHeaders options)
    :: map (fun p => join "," (csvRow options p)) (sortedParts options parts) in
  join (String newline "") lines.

End CsvExport.

(** The options used when the caller gives none. *)
Definition defaultExportOptions : ExportOptions.t :=
  ExportOptions.mk true false true cutlist_optimizer.

(** ** Dimensions as text *)

Inductive Units := mm | inches.

(** The literal [25.4]. *)
Definition mm_per_inch : number := Engine.decimal_literal "25" "4".

Definition formatDimension (value : number) (units : Units) : string :=
  match units with
  | inches => toFixed (value / mm_per_inch) 2 ++ String dquote ""
  | mm => Number_toString value ++ "mm"
  end.

Definition parseDimension (input : string) (units : Units) : number :=
  let cleaned :=
    keep_chars (fun c => is_digit c || Ascii.eqb c ".") input in
  let value := parseFloat cleaned in
  if isNaN value then 0
  else
    match units with
    | mm =>
        if includes_char dquote input || includes "in" (toLowerCase input)
        then Math_round (value * mm_per_inch)
        else Math_round value
    | inches => Math_round value
    end.

(** ** The Charta export ([services/chartaApi]) *)

(** The text of the blob made by the Charta variant of
    [generateCutListCSV]; the first header is [Peça]. *)
Definition chartaHeaders : list string :=
  [ String "P" (String "e" (String "231" (String "a" "")));
    "Comprimento (mm)"; "Largura (mm)"; "Quantidade" ].

Definition chartaRow (p : CutPart.t) : list string :=
  [ CutPart.partName p;
    toFixed (CutPart.length p) 1;
    toFixed (CutPart.width p) 1;
    Number_toString (CutPart.quantity p) ].

Definition chartaCutListCSV (parts : list CutPart.t) : string :=
  join (String newline "")
       (join "," chartaHeaders :: map (fun p => join "," (chartaRow p)) parts).

(** ** The cut list of the header *)

(** [allParts] of the header: the parts of every cabinet of the project,
    computed with its pattern and flattened; a cabinet whose pattern is not
    in the library has no parts. Patterns are given with their ids. *)
Fixpoint cabinetsWithParts (cabinets : list CabinetInstance.t)
  (patterns : list (string * CabinetPattern.t))
  (globalSettings : GlobalSettings.t) (defaultRuleSet : option RuleSet.t)
  (materials : list Material.t)
  : option (list (string * list ListedPart.t)) :=
  match cabinets with
  | [] => Some []
  | cabinet :: rest =>
      let parts :=
        match find (fun p => String.eqb (fst p)
                                        (CabinetInstance.patternId cabinet))
                   patterns with
        | None => Some []
        | Some (_, pattern) =>
            option_map (map (fun p => ListedPart.mk p None))
                       (headerParts cabinet pattern globalSettings
                                    defaultRuleSet materials)
        end in
      match parts, cabinetsWithParts rest patterns globalSettings
                                     defaultRuleSet materials with
      | Some ps, Some others =>
          Some ((CabinetInstance.name cabinet, ps) :: others)
      | _, _ => None
      end
  end.

Definition allParts (currentProject : option (list CabinetInstance.t))
  (patterns : list (string * CabinetPattern.t))
  (globalSettings : GlobalSettings.t) (defaultRuleSet : option RuleSet.t)
  (materials : list Material.t) : option (list ListedPart.t) :=
  match currentProject with
  | None => Some []
  | Some cabinets =>
      option_map flattenProjectToCutList
        (cabinetsWithParts cabinets patterns globalSettings defaultRuleSet
                           materials)
  end.

(* ================================================================== *)
(** * Reference definitions for the utilities                           *)
(* ================================================================== *)

(** A reader of comma-separated text, as a consumer of the export would
    run it (RFC 4180, records separated by line feeds). It is not part of
    the program: it serves to state that an export can be read back.
    [field] is the text of the current field, [row] the fields of the
    current record read so far. *)
Inductive ReaderState := FieldStart | Unquoted | Quoted | QuoteSeen.

Fixpoint read_csv_from (state : ReaderState) (field : string)
  (row : list string) (s : string) : list (list string) :=
  match s with
  | "" => [(row ++ [field])%list]
  | String c r =>
      match state with
      | Quoted =>
          if Ascii.eqb c dquote then read_csv_from QuoteSeen field row r
          else read_csv_from Quoted (field ++ String c "") row r
      | _ =>
          if Ascii.eqb c "," then
            read_csv_from FieldStart "" (row ++ [field])%list r
          else if Ascii.eqb c newline then
            (row ++ [field])%list :: read_csv_from FieldStart "" [] r
          else if Ascii.eqb c dquote then
            match state with
            | FieldStart => read_csv_from Quoted "" row r
            | QuoteSeen =>
                read_csv_from Quoted (field ++ String dquote "") row r
            | _ => read_csv_from Unquoted (field ++ String c "") row r
            end
          else read_csv_from Unquoted (field ++ String c "") row r
      end
  end.

Definition read_csv (s : string) : list (list string) :=
  read_csv_from FieldStart "" [] s.

(** Where a field may end: at the end of the text, a comma or a line
    feed. *)
Definition at_separator (rest : string) : Prop :=
  match rest with
  | "" => True
  | String c _ => c = ","%char \/ c = newline
  end.

(** Where a record may end. *)
Definition at_line_end (rest : string) : Prop :=
  match rest with
  | "" => True
  | String c _ => c = newline
  end.

(** The text of one record. *)
Definition record_text (cells : list string) : string :=
  join "," (map escapeCSV cells).

(** A text without comma, double quote and line feed. *)
Definition plain_character (c : ascii) : bool :=
  negb (Ascii.eqb c "," || Ascii.eqb c dquote || Ascii.eqb c newline).

Definition plain (s : string) : bool := all_chars plain_character s.

(** The characters of a printed number. *)
Definition number_character (c : ascii) : bool :=
  is_digit c ||
  existsb (Ascii.eqb c)
    ["."; "e"; "+"; "-"; "N"; "a"; "I"; "n"; "f"; "i"; "t"; "y"]%char.

(** The texts of the cells of the row of one part, before escaping. *)
Definition csvCells (options : ExportOptions.t) (p : ListedPart.t)
  : list string :=
  let part := ListedPart.part p in
  match ExportOptions.format options with
  | cutlist_optimizer =>
      ([ CutPart.partName part;
         Number_toString (CutPart.length part);
         Number_toString (CutPart.width part);
         Number_toString (CutPart.quantity part) ] ++
       match ListedPart.cabinetName p with
       | Some (String c r) =>
           if ExportOptions.includeLabels options then [String c r] else []
       | _ => []
       end)%list
  | _ =>
      [ CutPart.partName part;
        Number_toString (CutPart.length part);
        Number_toString (CutPart.width part);
        Number_toString (CutPart.quantity part);
        string_or (CutPart.material part) "Main Material";
        grain_name (CutPart.grain part);
        (if ExportOptions.includeEdgeBanding options
         then string_or (CutPart.edgeBanding part) "" else "");
        string_or (ListedPart.cabinetName p) "" ]
  end.

(** Does the part carry the name of a cabinet? *)
Definition labelled (p : ListedPart.t) : bool :=
  match ListedPart.cabinetName p with
  | Some (String _ _) => true
  | _ => false
  end.

(** A text without the separator of the consolidation key. *)
Definition without_bar (s : string) : bool :=
  negb (includes_char "|" s).

(** The characters that [parseDimension] looks at: digits and the point,
    which it keeps, and the double quote and the letter [i], with which an
    inch mark can begin. *)
Definition significant (c : ascii) : bool :=
  is_digit c || Ascii.eqb c "." || Ascii.eqb c dquote
  || Ascii.eqb (lower c) "i".

(** [f] holds for the [count] integers from [n] on. *)
Fixpoint all_from (count : nat) (n : Z) (f : Z -> bool) : bool :=
  match count with
  | O => true
  | S k => f n && all_from k (n + 1)%Z f
  end.

(** [patterns.find((p) => p.id === cabinet.patternId)] *)
Definition patternOf (cabinet : CabinetInstance.t)
  (patterns : list (string * CabinetPattern.t)) : option CabinetPattern.t :=
  option_map snd
    (find (fun p => String.eqb (fst p) (CabinetInstance.patternId cabinet))
          patterns).

(** The options of the export of the header with labels. *)
Definition labelledExport : ExportOptions.t :=
  ExportOptions.mk true true true cutlist_optimizer.

(** The order in which the export puts two parts when it groups by
    material. *)
Definition in_material_order (localeCompare : string -> string -> Z)
  (p q : ListedPart.t) : Prop :=
  (localeCompare (string_or (CutPart.material (ListedPart.part p)) "Main")
                 (string_or (CutPart.material (ListedPart.part q)) "Main")
   <= 0)%Z.

(** Two parts agree on what [consolidateParts] compares. *)
Definition same_kind (p q : ListedPart.t) : Prop :=
  let a := ListedPart.part p in
  let b := ListedPart.part q in
  CutPart.partName a = CutPart.partName b
  /\ Number_toString (CutPart.length a) = Number_toString (CutPart.length b)
  /\ Number_toString (CutPart.width a) = Number_toString (CutPart.width b)
  /\ string_or (CutPart.material a) "main"
     = string_or (CutPart.material b) "main".

Definition same_key (p q : ListedPart.t) : bool :=
  String.eqb (consolidationKey p) (consolidationKey q).

Definition quantity_of (p : ListedPart.t) : number :=
  CutPart.quantity (ListedPart.part p).

(** ** Sample data for the utilities *)

Definition listed (name : string) (length width quantity : number)
  (material cabinet : option string) : ListedPart.t :=
  ListedPart.mk
    (CutPart.mk name length width quantity None material None None) cabinet.

(** Collation by code units. *)
Definition by_code_units (a b : string) : Z :=
  if String.ltb a b then (-1)%Z else if String.eqb a b then 0%Z else 1%Z.

(** ** The cut list of the modal ([CutListModal]) *)

(** The loop over the cabinets of the project: a cabinet without pattern is
    passed over; the call of [calculateParts] gives six arguments, so that
    [materials] is [undefined]. *)
Fixpoint modalLoop (cabinets : list CabinetInstance.t)
  (patterns : list (string * CabinetPattern.t))
  (globalSettings : GlobalSettings.t) (selectedRuleSet : RuleSet.t)
  : option (list ListedPart.t) :=
  match cabinets with
  | [] => Some []
  | cabinet :: rest =>
      match find (fun p => String.eqb (fst p)
                                      (CabinetInstance.patternId cabinet))
                 patterns with
      | None => modalLoop rest patterns globalSettings selectedRuleSet
      | Some (_, pattern) =>
          match calculateParts pattern (CabinetInstance.dimensions cabinet)
                  globalSettings (CabinetInstance.variableOverrides cabinet)
                  (CabinetInstance.zoneProportions cabinet)
                  (Some selectedRuleSet) None,
                modalLoop rest patterns globalSettings selectedRuleSet with
          | Some cabinetParts, Some others =>
              Some (map (fun p =>
                           ListedPart.mk p
                             (Some (CabinetInstance.name cabinet)))
                        cabinetParts ++ others)%list
          | _, _ => None
          end
      end
  end.

(** [parts] of the modal: empty until a project is there, the list has been
    asked for and a rule set is selected. *)
Definition modalParts (project : option (list CabinetInstance.t))
  (isGenerated : bool) (selectedRuleSet : option RuleSet.t)
  (patterns : list (string * CabinetPattern.t))
  (globalSettings : GlobalSettings.t) : option (list ListedPart.t) :=
  match project, isGenerated, selectedRuleSet with
  | Some cabinets, true, Some ruleSet =>
      modalLoop cabinets patterns globalSettings ruleSet
  | _, _, _ => Some []
  end.



(** A project of one cabinet, with the library of its patterns. *)
Definition sampleProject : list CabinetInstance.t := [overriddenCabinet].

Definition samplePatterns : list (string * CabinetPattern.t) :=
  [("base", thickPattern)].

Definition sampleCutList : list ListedPart.t :=
  match allParts (Some sampleProject) samplePatterns settings18 None library
  with
  | Some parts => parts
  | None => []
  end.

(** ** Variable names *)

(** The first character of a variable name: a small letter or an underscore. *)
Definition name_start (c : ascii) : bool :=
  in_range 97 122 c || Ascii.eqb c "_".

(** The characters of a variable name: small letters, digits, underscore. *)
Definition name_character (c : ascii) : bool :=
  name_start c || is_digit c.

(** Names such as [total_height] and [zone_0_height]. *)
Definition variable_name (s : string) : bool :=
  match s with
  | "" => false
  | String c r => name_start c && all_chars name_character r
  end.

(** The characters of a number printed in positional notation. *)
Definition positional_character (c : ascii) : bool :=
  is_digit c || Ascii.eqb c "." || Ascii.eqb c "-".

(** [pattern] matches nowhere in [s]. *)
Fixpoint matches_nowhere (pattern s : string) : bool :=
  match s with
  | "" => true
  | String _ r => negb (matches_at pattern s) && matches_nowhere pattern r
  end.

(** What [evaluateExpression] does with the residue of the substitution. *)
Definition evaluateResidue (processedExpr : string) : option number :=
  if negb (safePattern processedExpr) then Some 0
  else
    match Engine.run processedExpr with
    | None => None
    | Some (Engine.Returns result) =>
        Some (if negb (isNaN result)
              then Math_round (result * 100) / 100
              else 0)
    | Some Engine.Throws => Some 0
    end.

(** What is checked of a whole number [n]: its text in millimetres and its
    text in inches are read back as [n] by [parseDimension], and its printed
    form is positional and evaluates to [n]. *)
Definition whole_number_checks (n : Z) : bool :=
  let printed := Number_toString (of_Z n) in
  PrimFloat.Leibniz.eqb (parseDimension (printed ++ "mm") mm) (of_Z n)
  && PrimFloat.Leibniz.eqb
       (parseDimension (formatDimension (of_Z n) inches) mm) (of_Z n)
  && all_chars positional_character printed
  && match evaluateResidue printed with
     | Some v => PrimFloat.Leibniz.eqb v (of_Z n)
     | None => false
     end.

(** Longest first. *)
Definition not_shorter (a b : string) : Prop :=
  (String.length b <= String.length a)%nat.

(* ================================================================== *)
(** * Properties of objects                                             *)
(* ================================================================== *)

Section ObjectFacts.
Context {V : Type}.
Implicit Types (o : object V) (k : string) (v : V).

Lemma get_set_same k v o : get k (set k v o) = Some v.
Proof.
  induction o as [|[k' w] o IH]; simpl.
  - now rewrite String.eqb_refl.
  - destruct (String.eqb k k') eqn:E; simpl; rewrite E; auto.
Qed.

Lemma get_set_other k k' v o : k <> k' -> get k (set k' v o) = get k o.
Proof.
  intros Hne. apply String.eqb_neq in Hne.
  induction o as [|[k0 w] o IH]; simpl.
  - now rewrite Hne.
  - destruct (String.eqb k' k0) eqn:E; simpl.
    + apply String.eqb_eq in E; subst k0. now rewrite Hne.
    + now rewrite IH.
Qed.

Lemma get_assign_other k o (es : list (string * V)) :
  ~ In k (map fst es) -> get k (assign o es) = get k o.
Proof.
  unfold assign. revert o.
  induction es as [|[k' w] es IH]; intros o Hnot; simpl in *.
  - reflexivity.
  - rewrite IH by tauto. apply get_set_other. intuition congruence.
Qed.


Lemma get_none_fresh k o : get k o = None -> ~ In k (map fst o).
Proof.
  induction o as [|[k' w] o IH]; simpl; [tauto|].
  destruct (String.eqb k k') eqn:E; [discriminate|].
  apply String.eqb_neq in E. intuition congruence.
Qed.

Lemma get_defined_set k k' v o :
  get k o <> None -> get k (set k' v o) <> None.
Proof.
  intros H. destruct (String.eqb k k') eqn:E.
  - apply String.eqb_eq in E; subst. rewrite get_set_same. discriminate.
  - apply String.eqb_neq in E. now rewrite get_set_other.
Qed.

Lemma get_defined_assign k o (es : list (string * V)) :
  get k o <> None -> get k (assign o es) <> None.
Proof.
  unfold assign. revert o.
  induction es as [|[k' w] es IH]; intros o H; simpl; auto.
  apply IH. now apply get_defined_set.
Qed.

End ObjectFacts.

Lemma insert_index_keys n k l x :
  In x (map snd (insert_index n k l)) -> x = k \/ In x (map snd l).
Proof.
  induction l as [|[m h] l IH]; simpl.
  - intuition.
  - destruct (n <? m)%N; simpl; intuition.
Qed.

Lemma partition_keys_sound keys x :
  In x (map snd (fst (partition_keys keys)) ++ snd (partition_keys keys))%list
  -> In x keys.
Proof.
  induction keys as [|k keys IH]; simpl; [tauto|].
  destruct (partition_keys keys) as [idx str]; simpl in *.
  destruct (array_index k); simpl; rewrite in_app_iff in *.
  - intros [H|H]; [apply insert_index_keys in H|]; intuition.
  - simpl. intuition.
Qed.

Lemma Object_keys_sound {V : Type} (o : object V) k :
  In k (Object_keys o) -> In k (map fst o).
Proof.
  unfold Object_keys. intros H. apply partition_keys_sound.
  now destruct (partition_keys (map fst o)).
Qed.

Lemma Object_entries_sound {V : Type} (o : object V) k :
  In k (map fst (Object_entries o)) -> In k (map fst o).
Proof.
  unfold Object_entries. intros H. apply Object_keys_sound.
  apply in_map_iff in H as [[k' v] [Hk Hin]]; simpl in Hk; subst k'.
  apply in_flat_map in Hin as [k' [Hk' Hin]].
  destruct (get k' o); simpl in Hin; [|contradiction].
  destruct Hin as [Heq|[]]. now inversion Heq; subst.
Qed.

(* ================================================================== *)
(** * The expression evaluator                                          *)
(* ================================================================== *)

(** Two results that differ as numbers are different results. *)
Ltac numbers_differ p :=
  let H := fresh in
  intro H;
  apply (f_equal (fun r => match r with Some v => p v | None => false end))
    in H;
  vm_compute in H; discriminate H.


Lemma insert_longest_sound k l x :
  In x (insert_longest k l) -> x = k \/ In x l.
Proof.
  induction l as [|h l IH]; simpl.
  - intuition.
  - destruct (String.length h <=? String.length k)%nat; simpl; intuition.
Qed.

Lemma sort_longest_first_sound keys x :
  In x (sort_longest_first keys) -> In x keys.
Proof.
  induction keys as [|k keys IH]; simpl; [tauto|].
  intros H. apply insert_longest_sound in H. intuition.
Qed.

(** On a context whose keys are literal patterns the substitution is
    defined: every text has a residue. *)
Lemma substitute_defined (text : string) (context : ExpressionContext) :
  (forall key, In key (map fst context) -> RegExp_literal key = true) ->
  exists residue, substitute text context = Some residue.
Proof.
  intros Hliteral. unfold substitute.
  assert (Hkeys : forall key,
             In key (sort_longest_first (Object_keys context)) ->
             RegExp_literal key = true).
  { intros key Hin. apply Hliteral, Object_keys_sound.
    now apply sort_longest_first_sound. }
  revert text Hkeys.
  induction (sort_longest_first (Object_keys context)) as [|k keys IH];
    intros text Hkeys; cbn [fold_left].
  - eauto.
  - assert (Hstep : exists e, substitute_key context (Some text) k = Some e).
    { unfold substitute_key. rewrite (Hkeys k) by (simpl; auto).
      destruct (get k context); eauto. }
    destruct Hstep as [e ->]. apply IH. intros key Hin. apply Hkeys.
    simpl. auto.
Qed.



(** C4, as stated, fails: the residue [1/0] is grammatical and evaluates to
    [Infinity], and [evaluateExpression] returns [Infinity], not 0. *)
Lemma evaluateExpression_infinite_result :
  ~ (forall (text : string) (context : ExpressionContext)
            (residue : string) (v : number),
       substitute (trim (toLowerCase text)) context = Some residue ->
       safePattern residue = true ->
       Engine.run residue = Some (Engine.Returns v) ->
       PrimFloat.is_finite v = false ->
       evaluateExpression (Str text) context = Some 0).
Proof.
  intros claim.
  specialize (claim "1/0" [] "1/0" infinity).
  revert claim. vm_compute. intros claim.
  specialize (claim eq_refl eq_refl eq_refl eq_refl).
  revert claim. numbers_differ PrimFloat.is_infinity.
Qed.

(** C4, amended. For a grammatical residue that evaluates to the number [v],
    [evaluateExpression] returns 0 when [v] is [NaN] and
    [Math.round(v * 100) / 100] for every other [v], the infinities
    included; a residue whose evaluation raises gives 0. *)
Theorem evaluateExpression_rounds_result :
  forall (text : string) (context : ExpressionContext) (residue : string),
    substitute (trim (toLowerCase text)) context = Some residue ->
    safePattern residue = true ->
    (forall v, Engine.run residue = Some (Engine.Returns v) ->
       evaluateExpression (Str text) context
       = Some (if isNaN v then 0 else Math_round (v * 100) / 100))
    /\ (Engine.run residue = Some Engine.Throws ->
        evaluateExpression (Str text) context = Some 0).
Proof.
  intros text context residue Hsub Hsafe.
  unfold evaluateExpression. rewrite Hsub, Hsafe. simpl.
  split.
  - intros v ->. now destruct (isNaN v).
  - now intros ->.
Qed.

Lemma evaluateExpression_rounds_result_witness :
  evaluateExpression (Str "thickness / 8") [("thickness", 18)] = Some 2.25
  /\ evaluateExpression (Str "0/0") [("thickness", 18)] = Some 0
  /\ evaluateExpression (Str "-1/0") [("thickness", 18)] = Some neg_infinity
  /\ evaluateExpression (Str "thickness(2)") [("thickness", 18)] = Some 0.
Proof.
  refine (conj _ (conj _ (conj _ _))).
  - exact (proj1 (evaluateExpression_rounds_result
                    "thickness / 8" [("thickness", 18)] "18 / 8"
                    eq_refl eq_refl)
                 (18 / 8) eq_refl).
  - exact (proj1 (evaluateExpression_rounds_result
                    "0/0" [("thickness", 18)] "0/0" eq_refl eq_refl)
                 nan eq_refl).
  - exact (proj1 (evaluateExpression_rounds_result
                    "-1/0" [("thickness", 18)] "-1/0" eq_refl eq_refl)
                 neg_infinity eq_refl).
  - exact (proj2 (evaluateExpression_rounds_result
                    "thickness(2)" [("thickness", 18)] "18(2)"
                    eq_refl eq_refl)
                 eq_refl).
Defined.

(* ================================================================== *)
(** * The part calculator on concrete cabinets                          *)
(* ================================================================== *)

(** C5. The end-to-end example: one rule [Lateral], a cabinet of 720 x 600 x
    560, material thickness 18 and back panel thickness 6 give exactly one
    part, 684 x 554, quantity 2 (whatever the other settings, the zone
    proportions and the material library). *)
Theorem calculateParts_lateral :
  forall (groove banding : number) (zoneProportions : option (list number))
         (materials : option (list Material.t)),
    calculateParts lateralPattern cabinet720
                   (GlobalSettings.mk 18 6 groove banding)
                   None zoneProportions None materials
    = Some [ CutPart.mk "Lateral" 684 554 2 None None None None ].
Proof.
  intros groove banding zoneProportions materials.
  vm_compute. reflexivity.
Qed.

(** C2 at the failing input: the length formula [0.4] passes the guard
    [length <= 0] and is then rounded, so the part is emitted with length 0. *)
Theorem calculateParts_emits_zero_length :
  calculateParts tinyPattern cabinet720 settings18 None None None None
  = Some [ CutPart.mk "Tiny" 0 100 1 None None None None ].
Proof. vm_compute. reflexivity. Qed.

(** C1 at the failing input: the header passes the cabinet's material
    overrides, [calculateParts] has no parameter for them, and the thickness
    of the rule stays the global 18 although the override names a material
    of thickness 25. *)
Theorem headerParts_ignores_materialOverrides :
  partThickness
    (partsContext thickPattern cabinet720 settings18 None None None)
    library (rule "Lateral" "total_height - 2*part_thickness" "100" "2")
  = 18
  /\ headerParts overriddenCabinet thickPattern settings18 None library
     = Some [ CutPart.mk "Lateral" 684 100 2 None None None None ]
  /\ (forall name patternId dimensions zoneProportions variableOverrides
             overrides overrides' pattern settings ruleSet materials,
        headerParts
          (CabinetInstance.mk name patternId dimensions zoneProportions
                              variableOverrides overrides)
          pattern settings ruleSet materials
        = headerParts
            (CabinetInstance.mk name patternId dimensions zoneProportions
                                variableOverrides overrides')
            pattern settings ruleSet materials).
Proof.
  refine (conj _ (conj _ _)).
  - vm_compute. reflexivity.
  - vm_compute. reflexivity.
  - intros. reflexivity.
Qed.

(* ================================================================== *)
(** * The loop over the part rules                                      *)
(* ================================================================== *)

Lemma emit_skips (rule : PartRule.t) (e : Evaluated) :
  (ev_length e <=? 0) = true \/ (ev_width e <=? 0) = true ->
  emit rule e = [].
Proof.
  unfold emit. intros [-> | ->]; [reflexivity|].
  now rewrite orb_true_r.
Qed.

Lemma emit_positive (rule : PartRule.t) (e : Evaluated) (part : CutPart.t) :
  In part (emit rule e) ->
  (ev_length e <=? 0) = false /\ (ev_width e <=? 0) = false
  /\ CutPart.length part = Math_round (ev_length e)
  /\ CutPart.width part = Math_round (ev_width e)
  /\ CutPart.partName part = PartRule.partName rule.
Proof.
  unfold emit.
  destruct (ev_length e <=? 0) eqn:El; [intros []|].
  destruct (ev_width e <=? 0) eqn:Ew; [intros []|].
  simpl. intros [<-|[]]. auto.
Qed.

Lemma processRules_app context materialsList (front back : list PartRule.t) :
  processRules context materialsList (front ++ back)
  = match processRules context materialsList front,
          processRules context materialsList back with
    | Some a, Some b => Some (a ++ b)%list
    | _, _ => None
    end.
Proof.
  induction front as [|r front IH]; simpl.
  - now destruct (processRules context materialsList back).
  - rewrite IH.
    destruct (evaluateRule context materialsList r); [|reflexivity].
    destruct (processRules context materialsList front); [|reflexivity].
    destruct (processRules context materialsList back); [|reflexivity].
    now rewrite app_assoc.
Qed.

(** What the guard of the loop does guarantee: a rule whose evaluated length
    or width is not positive contributes nothing and the rules around it are
    processed as usual, and every part of the list comes from a rule whose
    evaluated length and width are positive, carrying their roundings. *)
Theorem processRules_guard context materialsList :
  (forall front r back e,
      evaluateRule context materialsList r = Some e ->
      (ev_length e <=? 0) = true \/ (ev_width e <=? 0) = true ->
      processRules context materialsList (front ++ r :: back)
      = processRules context materialsList (front ++ back))
  /\ (forall rules parts part,
        processRules context materialsList rules = Some parts ->
        In part parts ->
        exists r e,
          In r rules /\ evaluateRule context materialsList r = Some e
          /\ (ev_length e <=? 0) = false /\ (ev_width e <=? 0) = false
          /\ CutPart.length part = Math_round (ev_length e)
          /\ CutPart.width part = Math_round (ev_width e)).
Proof.
  split.
  - intros front r back e He Hskip.
    rewrite !processRules_app. simpl. rewrite He, (emit_skips r e Hskip).
    destruct (processRules context materialsList front); [|reflexivity].
    now destruct (processRules context materialsList back).
  - induction rules as [|r rules IH]; simpl; intros parts part Hrun Hin.
    + inversion Hrun; subst. contradiction.
    + destruct (evaluateRule context materialsList r) as [e|] eqn:He;
        [|discriminate].
      destruct (processRules context materialsList rules) as [rest|];
        [|discriminate].
      inversion Hrun; subst. apply in_app_or in Hin as [Hin|Hin].
      * apply emit_positive in Hin. exists r, e. intuition.
      * destruct (IH rest part eq_refl Hin) as (r' & e' & Hr & H).
        exists r', e'. intuition.
Qed.

(** [context.material_thickness] is always defined when the loop over the
    part rules starts. *)
Lemma material_thickness_defined pattern dimensions settings overrides zp
  ruleSet :
  get "material_thickness"
      (partsContext pattern dimensions settings overrides zp ruleSet)
  <> None.
Proof.
  unfold partsContext, buildExpressionContext.
  apply get_defined_assign.
  assert (get "material_thickness"
              (assign (assign (baseContext dimensions settings pattern ruleSet)
                         (columnWidths pattern
                            (Dimensions.width dimensions
                             - 2 * materialThickness settings pattern)))
                      (patternVariables pattern)) <> None) as Hbase.
  { do 2 apply get_defined_assign.
    unfold baseContext. destruct (sideDimensions _ _ _ _) as [[? ?] ?].
    discriminate. }
  destruct overrides; [now apply get_defined_assign | exact Hbase].
Qed.

Lemma processRules_guard_witness :
  processRules
    (partsContext tinyPattern cabinet720 settings18 None None None) []
    ([rule "Top" "564" "560" "1"]
       ++ rule "Void" "0 - 4" "100" "1" :: [rule "Base" "564" "560" "1"])
  = processRules
      (partsContext tinyPattern cabinet720 settings18 None None None) []
      ([rule "Top" "564" "560" "1"] ++ [rule "Base" "564" "560" "1"]).
Proof.
  refine (proj1 (processRules_guard
                   (partsContext tinyPattern cabinet720 settings18
                                 None None None)
                   [])
                [rule "Top" "564" "560" "1"] (rule "Void" "0 - 4" "100" "1")
                [rule "Base" "564" "560" "1"] (mkEvaluated (-4) 100 1) _ _).
  - vm_compute. reflexivity.
  - left. reflexivity.
Defined.

(* ================================================================== *)
(** * The expression context                                            *)
(* ================================================================== *)

Lemma map_fst_flat_map {A B C : Type} (f g : A -> list (B * C)) (l : list A) :
  (forall x, map fst (f x) = map fst (g x)) ->
  map fst (flat_map f l) = map fst (flat_map g l).
Proof.
  intros H. induction l as [|x l IH]; simpl; [reflexivity|].
  now rewrite !map_app, H, IH.
Qed.

(** The names assigned by the column loop do not depend on the widths. *)
Lemma columnWidths_names (pattern : CabinetPattern.t) (w w' : number) :
  map fst (columnWidths pattern w) = map fst (columnWidths pattern w').
Proof.
  unfold columnWidths. destruct (column_based pattern); [|reflexivity].
  apply map_fst_flat_map. now intros [i column].
Qed.

Lemma rebinds_false (pattern : CabinetPattern.t) (key : string) :
  rebinds pattern key = false -> ~ In key (reboundNames pattern).
Proof.
  unfold rebinds. intros H Hin.
  assert (existsb (String.eqb key) (reboundNames pattern) = true) as E.
  { apply existsb_exists. exists key.
    split; [assumption|apply String.eqb_refl]. }
  congruence.
Qed.

(** For a pattern without columns, the rebound names are the pattern
    variables. *)
Lemma not_rebound (pattern : CabinetPattern.t) (key : string) :
  column_based pattern = None ->
  (forall variables,
     CabinetPattern.variables pattern = Some variables ->
     get key variables = None) ->
  rebinds pattern key = false.
Proof.
  intros Hflat Hvars. unfold rebinds, reboundNames, columnWidths.
  rewrite Hflat. simpl.
  destruct (existsb (String.eqb key) (map fst (patternVariables pattern)))
    eqn:E; [|reflexivity].
  apply existsb_exists in E as (k & Hin & Hk).
  apply String.eqb_eq in Hk; subst k.
  unfold patternVariables in Hin.
  destruct (CabinetPattern.variables pattern) as [variables|];
    [|contradiction].
  apply Object_entries_sound in Hin.
  now apply (get_none_fresh key variables (Hvars variables eq_refl)) in Hin.
Qed.

(** A name that is not rebound keeps the value of the object literal. *)
Lemma buildExpressionContext_literal dimensions settings pattern ruleSet key :
  rebinds pattern key = false ->
  get key (buildExpressionContext dimensions settings pattern ruleSet)
  = get key (baseContext dimensions settings pattern ruleSet).
Proof.
  intros H. apply rebinds_false in H. unfold reboundNames in H.
  rewrite in_app_iff in H. unfold buildExpressionContext.
  rewrite !get_assign_other; try tauto.
  rewrite (columnWidths_names pattern _ 0). tauto.
Qed.

(** C6. The construction-aware variables, for height [H], width [W] and
    effective carcass thickness [t]:
      - sides-on-bottom: side_height = H, bottom_width = top_width = W - 2t;
      - bottom-between-sides: side_height = H - t, bottom_width = W,
        top_width = W - 2t;
      - all-between: side_height = H - 2t, bottom_width = top_width = W - 2t.
    The object literal of [buildExpressionContext] binds them so, and the
    returned context still does for every name that no column id and no
    pattern variable rebinds. *)
Theorem side_construction_variables :
  forall (dimensions : Dimensions.t) (settings : GlobalSettings.t)
         (pattern : CabinetPattern.t) (ruleSet : option RuleSet.t),
    let H := Dimensions.height dimensions in
    let W := Dimensions.width dimensions in
    let t := materialThickness settings pattern in
    let bound key value :=
      get key (baseContext dimensions settings pattern ruleSet) = Some value
      /\ (rebinds pattern key = false ->
          get key (buildExpressionContext dimensions settings pattern ruleSet)
          = Some value) in
    match sideConstruction ruleSet with
    | sides_on_bottom =>
        bound "side_height" H
        /\ bound "bottom_width" (W - 2 * t)
        /\ bound "top_width" (W - 2 * t)
    | bottom_between_sides =>
        bound "side_height" (H - t)
        /\ bound "bottom_width" W
        /\ bound "top_width" (W - 2 * t)
    | all_between =>
        bound "side_height" (H - 2 * t)
        /\ bound "bottom_width" (W - 2 * t)
        /\ bound "top_width" (W - 2 * t)
    end.
Proof.
  intros dimensions settings pattern ruleSet H W t bound.
  assert (Hbound : forall key value,
             get key (baseContext dimensions settings pattern ruleSet)
             = Some value -> bound key value).
  { intros key value Hget. split; [exact Hget|].
    intros Hfree.
    now rewrite (buildExpressionContext_literal _ _ _ _ _ Hfree). }
  unfold baseContext in Hbound. fold H W t in Hbound.
  unfold sideDimensions in Hbound.
  destruct (sideConstruction ruleSet);
    repeat split; apply Hbound; reflexivity.
Qed.

Lemma side_construction_variables_witness :
  (get "side_height"
       (buildExpressionContext cabinet720 settings18 twoColumns
          (Some (ruleSetWith bottom_between_sides))) = Some 702
   /\ get "bottom_width"
        (buildExpressionContext cabinet720 settings18 twoColumns
           (Some (ruleSetWith bottom_between_sides))) = Some 600
   /\ get "top_width"
        (buildExpressionContext cabinet720 settings18 twoColumns
           (Some (ruleSetWith bottom_between_sides))) = Some 564)
  /\ get "bottom_width"
       (buildExpressionContext cabinet720 settings18 twoColumns None)
     = Some 564
  /\ get "side_height"
       (buildExpressionContext cabinet720 settings18 twoColumns
          (Some (ruleSetWith all_between))) = Some 684.
Proof.
  pose proof (side_construction_variables cabinet720 settings18 twoColumns
                (Some (ruleSetWith bottom_between_sides)))
    as (Hside & Hbottom & Htop).
  pose proof (side_construction_variables cabinet720 settings18 twoColumns None)
    as (_ & Hdefault & _).
  pose proof (side_construction_variables cabinet720 settings18 twoColumns
                (Some (ruleSetWith all_between)))
    as (Hframe & _ & _).
  refine (conj (conj _ (conj _ _)) (conj _ _)).
  - exact (proj2 Hside eq_refl).
  - exact (proj2 Hbottom eq_refl).
  - exact (proj2 Htop eq_refl).
  - exact (proj2 Hdefault eq_refl).
  - exact (proj2 Hframe eq_refl).
Defined.

(** C7, as stated, fails for the front (and the shelf): a pattern that
    declares a carcass thickness of 16 and no front thickness gets a front
    thickness of 16, not the global default 18. *)
Lemma front_thickness_follows_carcass :
  ~ (forall (dimensions : Dimensions.t) (settings : GlobalSettings.t)
            (pattern : CabinetPattern.t),
       role_thickness pattern PatternMaterials.front = None ->
       frontThickness settings pattern
       = GlobalSettings.materialThickness settings
       /\ get "front_thickness"
              (buildExpressionContext dimensions settings pattern None)
          = Some (GlobalSettings.materialThickness settings)).
Proof.
  intros claim.
  destruct (claim cabinet720 settings18 carcass16 eq_refl) as [_ Hctx].
  revert Hctx. numbers_differ (PrimFloat.eqb 16).
Qed.

(** C7, amended. A thickness declared by the pattern for a role is the
    effective thickness of that role. Without one, the carcass falls back
    to the global material thickness and the back to the global back panel
    thickness, while the front and the shelf fall back to the effective
    carcass thickness. The context carries these values under
    [material_thickness], [thickness], [carcass_thickness],
    [front_thickness] and [shelf_thickness] (when the name is not rebound),
    and the back panel thickness under [back_thickness] when no rule set
    is given. *)
Theorem effective_thickness_per_role :
  forall (dimensions : Dimensions.t) (settings : GlobalSettings.t)
         (pattern : CabinetPattern.t) (ruleSet : option RuleSet.t),
    let declared := role_thickness pattern in
    let context := buildExpressionContext dimensions settings pattern ruleSet in
    let carcass :=
      match declared PatternMaterials.carcass with
      | Some c => c
      | None => GlobalSettings.materialThickness settings
      end in
    let back :=
      match declared PatternMaterials.back with
      | Some b => b
      | None => GlobalSettings.backPanelThickness settings
      end in
    let front :=
      match declared PatternMaterials.front with
      | Some f => f
      | None => carcass
      end in
    let shelf :=
      match declared PatternMaterials.shelf with
      | Some s => s
      | None => carcass
      end in
    (materialThickness settings pattern = carcass
     /\ backPanelThickness settings pattern = back
     /\ frontThickness settings pattern = front
     /\ shelfThickness settings pattern = shelf)
    /\ (forall key,
          In key ["material_thickness"; "thickness"; "carcass_thickness"] ->
          rebinds pattern key = false -> get key context = Some carcass)
    /\ (rebinds pattern "front_thickness" = false ->
        get "front_thickness" context = Some front)
    /\ (rebinds pattern "shelf_thickness" = false ->
        get "shelf_thickness" context = Some shelf)
    /\ (rebinds pattern "back_thickness" = false -> ruleSet = None ->
        get "back_thickness" context = Some back).
Proof.
  intros dimensions settings pattern ruleSet declared context
         carcass back front shelf.
  subst declared context carcass back front shelf.
  refine (conj _ (conj _ (conj _ (conj _ _)))).
  - now unfold materialThickness, backPanelThickness, frontThickness,
      shelfThickness, materialThickness, nullish.
  - intros key Hkey Hfree.
    rewrite (buildExpressionContext_literal _ _ _ _ _ Hfree).
    unfold baseContext, materialThickness, nullish.
    destruct (sideDimensions _ _ _ _) as [[? ?] ?].
    simpl in Hkey.
    destruct Hkey as [<-|[<-|[<-|[]]]]; reflexivity.
  - intros Hfree.
    rewrite (buildExpressionContext_literal _ _ _ _ _ Hfree).
    unfold baseContext. destruct (sideDimensions _ _ _ _) as [[? ?] ?].
    reflexivity.
  - intros Hfree.
    rewrite (buildExpressionContext_literal _ _ _ _ _ Hfree).
    unfold baseContext. destruct (sideDimensions _ _ _ _) as [[? ?] ?].
    reflexivity.
  - intros Hfree ->.
    rewrite (buildExpressionContext_literal _ _ _ _ _ Hfree).
    reflexivity.
Qed.

Lemma effective_thickness_per_role_witness :
  get "thickness" (buildExpressionContext cabinet720 settings18 carcass16 None)
  = Some 16
  /\ get "front_thickness"
       (buildExpressionContext cabinet720 settings18 carcass16 None)
     = Some 16
  /\ get "back_thickness"
       (buildExpressionContext cabinet720 settings18 carcass16 None)
     = Some 8
  /\ get "shelf_thickness"
       (buildExpressionContext cabinet720 settings18 lateralPattern None)
     = Some 18.
Proof.
  refine (conj _ (conj _ (conj _ _))).
  - exact (proj1 (proj2 (effective_thickness_per_role
                           cabinet720 settings18 carcass16 None))
                 "thickness" (or_intror (or_introl eq_refl)) eq_refl).
  - exact (proj1 (proj2 (proj2 (effective_thickness_per_role
                                  cabinet720 settings18 carcass16 None)))
                 eq_refl).
  - exact (proj2 (proj2 (proj2 (proj2 (effective_thickness_per_role
                                         cabinet720 settings18 carcass16
                                         None))))
                 eq_refl eq_refl).
  - exact (proj1 (proj2 (proj2 (proj2 (effective_thickness_per_role
                                         cabinet720 settings18 lateralPattern
                                         None))))
                 eq_refl).
Defined.

(** C10, as stated, fails for [back_thickness]: with a rule set whose back
    panel thickness is 0, a pattern that declares a back thickness of 8
    gets 8, not the global back panel thickness 6. *)
Lemma zero_back_offset_uses_pattern_thickness :
  ~ (forall (dimensions : Dimensions.t) (settings : GlobalSettings.t)
            (pattern : CabinetPattern.t) (ruleSet : RuleSet.t),
       RuleSet.backPanelThickness (RuleSet.offsets ruleSet) = 0 ->
       rebinds pattern "back_thickness" = false ->
       get "back_thickness"
           (buildExpressionContext dimensions settings pattern (Some ruleSet))
       = Some (GlobalSettings.backPanelThickness settings)).
Proof.
  intros claim.
  specialize (claim cabinet720 settings18 carcass16 zeroOffsets
                    eq_refl eq_refl).
  revert claim. numbers_differ (PrimFloat.eqb 8).
Qed.

(** C10, amended. An offset of the rule set that is 0 selects the default,
    as an absent rule set does: 3 for [drawer_front_gap] and [door_gap], 20
    for [shelf_inset], 12.5 for [drawer_slide_offset], the effective back
    panel thickness (the one the pattern declares for the back, else the
    global one) for [back_thickness], and the global groove depth for
    [back_groove]; each for a name that the pattern does not rebind. *)
Theorem zero_offset_selects_default :
  forall (dimensions : Dimensions.t) (settings : GlobalSettings.t)
         (pattern : CabinetPattern.t) (ruleSet : RuleSet.t),
    let offsets := RuleSet.offsets ruleSet in
    let context :=
      buildExpressionContext dimensions settings pattern (Some ruleSet) in
    let absent :=
      buildExpressionContext dimensions settings pattern None in
    (RuleSet.drawerFrontGap offsets = 0 ->
     rebinds pattern "drawer_front_gap" = false ->
     get "drawer_front_gap" context = Some 3
     /\ get "drawer_front_gap" absent = Some 3)
    /\ (RuleSet.doorGap offsets = 0 ->
        rebinds pattern "door_gap" = false ->
        get "door_gap" context = Some 3
        /\ get "door_gap" absent = Some 3)
    /\ (RuleSet.shelfInset offsets = 0 ->
        rebinds pattern "shelf_inset" = false ->
        get "shelf_inset" context = Some 20
        /\ get "shelf_inset" absent = Some 20)
    /\ (RuleSet.drawerSlideOffset offsets = 0 ->
        rebinds pattern "drawer_slide_offset" = false ->
        get "drawer_slide_offset" context = Some 12.5
        /\ get "drawer_slide_offset" absent = Some 12.5)
    /\ (RuleSet.backPanelThickness offsets = 0 ->
        rebinds pattern "back_thickness" = false ->
        get "back_thickness" context
        = Some (backPanelThickness settings pattern)
        /\ get "back_thickness" absent
           = Some (backPanelThickness settings pattern))
    /\ (RuleSet.backGrooveDepth offsets = 0 ->
        rebinds pattern "back_groove" = false ->
        get "back_groove" context
        = Some (GlobalSettings.backPanelGrooveDepth settings)
        /\ get "back_groove" absent
           = Some (GlobalSettings.backPanelGrooveDepth settings)).
Proof.
  intros dimensions settings pattern ruleSet offsets context absent.
  subst offsets context absent.
  repeat match goal with |- _ /\ _ => split end;
    intros Hzero Hfree;
    rewrite !(buildExpressionContext_literal _ _ _ _ _ Hfree);
    unfold baseContext;
    repeat match goal with
           | |- context [sideDimensions ?a ?b ?c ?d] =>
               destruct (sideDimensions a b c d) as [[? ?] ?]
           end;
    unfold offset; simpl option_map; rewrite Hzero; split; reflexivity.
Qed.

Lemma zero_offset_selects_default_witness :
  get "drawer_front_gap"
      (buildExpressionContext cabinet720 settings18 carcass16
          (Some zeroOffsets))
  = Some 3
  /\ get "drawer_slide_offset"
       (buildExpressionContext cabinet720 settings18 carcass16
          (Some zeroOffsets))
     = Some 12.5
  /\ get "back_thickness"
       (buildExpressionContext cabinet720 settings18 carcass16
          (Some zeroOffsets))
     = Some 8
  /\ get "back_groove"
       (buildExpressionContext cabinet720 settings18 carcass16
          (Some zeroOffsets))
     = Some 8.
Proof.
  pose proof (zero_offset_selects_default cabinet720 settings18 carcass16
                zeroOffsets) as (Hgap & _ & _ & Hslide & Hback & Hgroove).
  refine (conj _ (conj _ (conj _ _))).
  - exact (proj1 (Hgap eq_refl eq_refl)).
  - exact (proj1 (Hslide eq_refl eq_refl)).
  - exact (proj1 (Hback eq_refl eq_refl)).
  - exact (proj1 (Hgroove eq_refl eq_refl)).
Defined.

(* ================================================================== *)
(** * Proportions                                                       *)
(* ================================================================== *)















(* ================================================================== *)
(** * Material lookup and quantities                                    *)
(* ================================================================== *)

Lemma find_first (id : string) (before after : list Material.t)
  (m : Material.t) :
  (forall x, In x before -> Material.id x <> id) ->
  Material.id m = id ->
  find (fun x => String.eqb (Material.id x) id) (before ++ m :: after)
  = Some m.
Proof.
  intros Hbefore Hm. induction before as [|x before IH]; simpl.
  - now rewrite Hm, String.eqb_refl.
  - destruct (String.eqb (Material.id x) id) eqn:E.
    + apply String.eqb_eq in E. exfalso. apply (Hbefore x); simpl; auto.
    + apply IH. intros y Hy. apply Hbefore. simpl. auto.
Qed.

Lemma find_absent (id : string) (materials : list Material.t) :
  (forall x, In x materials -> Material.id x <> id) ->
  find (fun x => String.eqb (Material.id x) id) materials = None.
Proof.
  intros Habsent. induction materials as [|x materials IH]; simpl; auto.
  destruct (String.eqb (Material.id x) id) eqn:E.
  - apply String.eqb_eq in E. exfalso. apply (Habsent x); simpl; auto.
  - apply IH. intros y Hy. apply Habsent. simpl. auto.
Qed.

(** The contract of [getMaterialThickness]: the fallback when no id is
    given or no material of the library has the id, and otherwise the
    thickness of the first material with that id. *)
Theorem getMaterialThickness_contract :
  forall (materials : list Material.t) (fallback : number),
    getMaterialThickness None materials fallback = fallback
    /\ getMaterialThickness (Some "") materials fallback = fallback
    /\ (forall id,
          (forall x, In x materials -> Material.id x <> id) ->
          getMaterialThickness (Some id) materials fallback = fallback)
    /\ (forall id before m after,
          id <> "" ->
          materials = (before ++ m :: after)%list ->
          (forall x, In x before -> Material.id x <> id) ->
          Material.id m = id ->
          getMaterialThickness (Some id) materials fallback
          = Material.thickness m).
Proof.
  intros materials fallback. refine (conj _ (conj _ (conj _ _))).
  - reflexivity.
  - reflexivity.
  - intros id Habsent. unfold getMaterialThickness.
    destruct id; [reflexivity|]. now rewrite find_absent.
  - intros id before m after Hid -> Hbefore Hm. unfold getMaterialThickness.
    destruct id; [congruence|]. now rewrite (find_first _ before after m).
Qed.

Lemma getMaterialThickness_contract_witness :
  getMaterialThickness None [Material.mk "m1" 16] 18 = 18
  /\ getMaterialThickness (Some "m1") [Material.mk "m1" 16] 18 = 16
  /\ getMaterialThickness (Some "m2") [Material.mk "m1" 16] 18 = 18.
Proof.
  pose proof (getMaterialThickness_contract [Material.mk "m1" 16] 18)
    as (Hnone & _ & Habsent & Hfound).
  refine (conj Hnone (conj _ _)).
  - refine (Hfound "m1" [] (Material.mk "m1" 16) [] _ eq_refl _ eq_refl).
    + discriminate.
    + intros x [].
  - apply Habsent. intros x [<-|[]]. discriminate.
Defined.






(* ================================================================== *)
(** * Strings                                                           *)
(* ================================================================== *)

Lemma append_assoc (a b c : string) : (a ++ b) ++ c = a ++ (b ++ c).
Proof. induction a as [|x a IH]; simpl; [reflexivity|now rewrite IH]. Qed.

Lemma append_empty (a : string) : a ++ "" = a.
Proof. induction a as [|x a IH]; simpl; [reflexivity|now rewrite IH]. Qed.

Lemma all_chars_append p (a b : string) :
  all_chars p (a ++ b) = all_chars p a && all_chars p b.
Proof.
  induction a as [|x a IH]; simpl; [reflexivity|].
  now rewrite IH, andb_assoc.
Qed.

Lemma all_chars_weaken (p q : ascii -> bool) (s : string) :
  (forall c, p c = true -> q c = true) ->
  all_chars p s = true -> all_chars q s = true.
Proof.
  intros Hpq. induction s as [|c s IH]; simpl; [reflexivity|].
  intros H. apply andb_true_iff in H as [Hc Hs].
  now rewrite (Hpq c Hc), IH.
Qed.

Lemma all_chars_substring p (s : string) (n m : nat) :
  all_chars p s = true -> all_chars p (substring n m s) = true.
Proof.
  revert n m.
  induction s as [|c s IH]; intros [|n] [|m]; simpl; auto;
    intros H; apply andb_true_iff in H as [Hc Hs]; auto.
  now rewrite Hc, IH.
Qed.

(* ================================================================== *)
(** * Reading an export back                                            *)
(* ================================================================== *)


Lemma read_at_separator state field row rest :
  state <> Quoted -> at_separator rest ->
  read_csv_from state field row rest = read_csv_from Unquoted field row rest.
Proof.
  intros Hstate Hsep. destruct rest as [|c r]; [reflexivity|].
  destruct state; try congruence; try reflexivity;
    destruct Hsep as [-> | ->]; reflexivity.
Qed.

Lemma plain_character_cases (c : ascii) :
  plain_character c = true ->
  Ascii.eqb c "," = false /\ Ascii.eqb c dquote = false
  /\ Ascii.eqb c newline = false.
Proof.
  unfold plain_character. intros H. apply negb_true_iff in H.
  apply orb_false_iff in H as [H Hn]. apply orb_false_iff in H as [Hc Hq].
  auto.
Qed.

Lemma read_plain (f : string) field row rest :
  plain f = true ->
  read_csv_from Unquoted field row (f ++ rest)
  = read_csv_from Unquoted (field ++ f) row rest.
Proof.
  revert field. induction f as [|c f IH]; intros field Hplain; simpl.
  - now rewrite append_empty.
  - simpl in Hplain. apply andb_true_iff in Hplain as [Hc Hf].
    apply plain_character_cases in Hc as (-> & -> & ->).
    rewrite IH by assumption. now rewrite append_assoc.
Qed.

Lemma read_quoted (f : string) field row rest :
  read_csv_from Quoted field row (double_quotes f ++ String dquote rest)
  = read_csv_from QuoteSeen (field ++ f) row rest.
Proof.
  revert field. induction f as [|c f IH]; intros field; simpl.
  - now rewrite append_empty.
  - destruct (Ascii.eqb c dquote) eqn:E; simpl.
    + apply Ascii.eqb_eq in E; subst c.
      rewrite IH. now rewrite append_assoc.
    + rewrite E, IH. now rewrite append_assoc.
Qed.

Lemma includes_char_step (c d : ascii) (r : string) :
  includes_char c (String d r) = Ascii.eqb c d || includes_char c r.
Proof. reflexivity. Qed.

Lemma escapeCSV_plain (f : string) : plain f = true -> escapeCSV f = f.
Proof.
  intros Hplain. unfold escapeCSV.
  assert (H : includes_char "," f || includes_char dquote f
              || includes_char newline f = false).
  { induction f as [|c f IH]; [reflexivity|].
    simpl in Hplain. apply andb_true_iff in Hplain as [Hc Hf].
    apply plain_character_cases in Hc as (Hc1 & Hc2 & Hc3).
    specialize (IH Hf). rewrite !includes_char_step.
    rewrite (Ascii.eqb_sym "," c), (Ascii.eqb_sym dquote c),
      (Ascii.eqb_sym newline c), Hc1, Hc2, Hc3. exact IH. }
  now rewrite H.
Qed.

Lemma not_plain_escaped (f : string) :
  plain f = false ->
  escapeCSV f = String dquote (double_quotes f ++ String dquote "").
Proof.
  intros Hplain. unfold escapeCSV.
  assert (H : includes_char "," f || includes_char dquote f
              || includes_char newline f = true).
  { induction f as [|c f IH]; [discriminate|].
    simpl in Hplain. apply andb_false_iff in Hplain as [Hc|Hf].
    - unfold plain_character in Hc. apply negb_false_iff in Hc.
      rewrite !includes_char_step.
      rewrite (Ascii.eqb_sym "," c), (Ascii.eqb_sym dquote c),
        (Ascii.eqb_sym newline c).
      destruct (Ascii.eqb c ","), (Ascii.eqb c dquote),
        (Ascii.eqb c newline); try discriminate;
        rewrite ?orb_true_r; reflexivity.
    - specialize (IH Hf). rewrite !includes_char_step.
      apply orb_true_iff in IH as [IH|IH];
        [apply orb_true_iff in IH as [IH|IH]|]; rewrite IH;
        rewrite ?orb_true_r; reflexivity. }
  now rewrite H.
Qed.

(** One escaped field, followed by a separator, is read as the field. *)
Lemma read_field (f : string) row rest :
  at_separator rest ->
  read_csv_from FieldStart "" row (escapeCSV f ++ rest)
  = read_csv_from Unquoted f row rest.
Proof.
  intros Hsep. destruct (plain f) eqn:Hplain.
  - rewrite escapeCSV_plain by assumption.
    destruct f as [|c f]; simpl.
    + now apply read_at_separator.
    + simpl in Hplain. apply andb_true_iff in Hplain as [Hc Hf].
      apply plain_character_cases in Hc as (-> & -> & ->).
      now rewrite read_plain.
  - rewrite not_plain_escaped by assumption.
    change (read_csv_from Quoted "" row
              ((double_quotes f ++ String dquote "") ++ rest)
            = read_csv_from Unquoted f row rest).
    rewrite append_assoc. simpl. rewrite read_quoted. simpl.
    now apply read_at_separator.
Qed.


Lemma line_end_separator rest : at_line_end rest -> at_separator rest.
Proof. destruct rest; simpl; auto. Qed.

(** One row of escaped fields is read as its fields. *)
Lemma read_row (cells : list string) (last : string) row rest :
  at_line_end rest ->
  read_csv_from FieldStart "" row
    (join "," (map escapeCSV (cells ++ [last])) ++ rest)
  = read_csv_from Unquoted last (row ++ cells) rest.
Proof.
  intros Hend. revert row.
  induction cells as [|f cells IH]; intros row; simpl.
  - rewrite app_nil_r. apply read_field. now apply line_end_separator.
  - destruct (map escapeCSV (cells ++ [last])) as [|g gs] eqn:E.
    { destruct cells; discriminate. }
    rewrite append_assoc. rewrite read_field by (simpl; auto).
    simpl. rewrite IH. f_equal. now rewrite <- app_assoc.
Qed.


(* ================================================================== *)
(** * The characters of a printed number                                *)
(* ================================================================== *)

Lemma digits_of_uint (d : Decimal.uint) :
  all_chars is_digit (NilEmpty.string_of_uint d) = true.
Proof. induction d; simpl; auto. Qed.

Lemma digits_are_digits (z : Z) : all_chars is_digit (digits z) = true.
Proof.
  unfold digits, NilZero.string_of_uint.
  destruct (N.to_uint (Z.to_N z)) eqn:E; try reflexivity;
    rewrite <- E; apply digits_of_uint.
Qed.

Lemma zeros_are_digits (n : nat) : all_chars is_digit (zeros n) = true.
Proof. induction n; simpl; auto. Qed.

Lemma digit_number_character (c : ascii) :
  is_digit c = true -> number_character c = true.
Proof. unfold number_character. now intros ->. Qed.

Lemma digits_number_characters (z : Z) :
  all_chars number_character (digits z) = true.
Proof.
  apply (all_chars_weaken is_digit); [apply digit_number_character|].
  apply digits_are_digits.
Qed.

Lemma zeros_number_characters (n : nat) :
  all_chars number_character (zeros n) = true.
Proof.
  apply (all_chars_weaken is_digit); [apply digit_number_character|].
  apply zeros_are_digits.
Qed.

Ltac number_characters :=
  repeat first
    [ reflexivity
    | apply digits_number_characters
    | apply zeros_number_characters
    | rewrite all_chars_append; apply andb_true_iff; split
    | apply all_chars_substring ].

Lemma layout_number_characters (s n k : Z) :
  all_chars number_character (layout s n k) = true.
Proof.
  unfold layout.
  destruct ((k <=? n)%Z && (n <=? 21)%Z); [number_characters|].
  destruct ((0 <? n)%Z && (n <=? 21)%Z); [number_characters|].
  destruct ((-6 <? n)%Z && (n <=? 0)%Z); [number_characters|].
  destruct (k =? 1)%Z, (n - 1 <? 0)%Z; number_characters.
Qed.

Lemma Number_toString_characters (x : number) :
  all_chars number_character (Number_toString x) = true.
Proof.
  unfold Number_toString.
  destruct (Prim2SF x) as [s|s| |s m e]; try reflexivity.
  - now destruct s.
  - destruct (0 <=? e)%Z;
      match goal with
      | |- context [shortest ?f ?a ?p ?q ?n ?k] =>
          destruct (shortest f a p q n k) as [[d n'] k']
      end;
      destruct s; number_characters; apply layout_number_characters.
Qed.

Lemma number_character_plain (c : ascii) :
  number_character c = true -> plain_character c = true.
Proof.
  unfold number_character, is_digit, in_range, plain_character.
  destruct (Ascii.eqb c ",") eqn:E1;
    [apply Ascii.eqb_eq in E1; subst c; discriminate|].
  destruct (Ascii.eqb c dquote) eqn:E2;
    [apply Ascii.eqb_eq in E2; subst c; discriminate|].
  destruct (Ascii.eqb c newline) eqn:E3;
    [apply Ascii.eqb_eq in E3; subst c; discriminate|].
  reflexivity.
Qed.

Lemma Number_toString_plain (x : number) : plain (Number_toString x) = true.
Proof.
  apply (all_chars_weaken number_character);
    [apply number_character_plain|apply Number_toString_characters].
Qed.

Lemma toFixed_characters (x : number) (f : nat) :
  all_chars number_character (toFixed x f) = true.
Proof.
  unfold toFixed.
  pose proof (Number_toString_characters x) as Hx.
  destruct (Prim2SF x) as [s|s| |s m e]; try exact Hx.
  - destruct (Nat.eqb f 0); number_characters.
  - destruct (0 <=? e)%Z; cbv zeta beta iota;
      match goal with
      | |- context [if ?b then Number_toString x else _] =>
          destruct b; [exact Hx|]
      end;
      destruct s, (Nat.eqb f 0); unfold pad_zeros; number_characters.
Qed.

Lemma toFixed_plain (x : number) (f : nat) : plain (toFixed x f) = true.
Proof.
  apply (all_chars_weaken number_character);
    [apply number_character_plain|apply toFixed_characters].
Qed.

(* ================================================================== *)
(** * The export reads back                                             *)
(* ================================================================== *)

Lemma last_cell {A : Type} (x : A) (l : list A) :
  exists front last, x :: l = (front ++ [last])%list.
Proof.
  revert x. induction l as [|y l IH]; intros x.
  - now exists [], x.
  - destruct (IH y) as (front & last & E). exists (x :: front), last.
    now rewrite E.
Qed.

Lemma join_cons (sep x y : string) (l : list string) :
  join sep (x :: y :: l) = x ++ sep ++ join sep (y :: l).
Proof. reflexivity. Qed.

Lemma read_records (rows : list (list string)) (first : list string) :
  Forall (fun r => r <> []) (first :: rows) ->
  read_csv (join (String newline "") (map record_text (first :: rows)))
  = first :: rows.
Proof.
  unfold read_csv. revert first.
  induction rows as [|r rows IH]; intros first Hrows.
  - inversion Hrows as [|? ? Hfirst _]; subst.
    destruct first as [|x l]; [congruence|].
    destruct (last_cell x l) as (front & last & ->).
    cbn [map join]. unfold record_text.
    rewrite <- (append_empty (join "," _)).
    rewrite read_row by exact I. reflexivity.
  - inversion Hrows as [|? ? Hfirst Hrest]; subst.
    destruct first as [|x l]; [congruence|].
    destruct (last_cell x l) as (front & last & ->).
    change (map record_text ((front ++ [last])%list :: r :: rows))
      with (record_text (front ++ [last])%list
            :: record_text r :: map record_text rows).
    rewrite join_cons. unfold record_text at 1.
    rewrite read_row by reflexivity.
    cbn [append read_csv_from].
    change (Ascii.eqb newline ",") with false.
    rewrite Ascii.eqb_refl. cbn iota.
    change (record_text r :: map record_text rows)
      with (map record_text (r :: rows)).
    rewrite IH by exact Hrest. reflexivity.
Qed.

Section ExportFacts.
Variable localeCompare : string -> string -> Z.

Lemma insert_sorted_permutation (p : ListedPart.t) (l : list ListedPart.t) :
  Permutation (insert_sorted localeCompare p l) (p :: l).
Proof.
  induction l as [|q l IH]; simpl; [reflexivity|].
  match goal with |- context [if ?b then _ else _] => destruct b end;
    [reflexivity|].
  rewrite IH. apply perm_swap.
Qed.

Lemma sortedParts_permutation options (parts : list ListedPart.t) :
  Permutation (sortedParts localeCompare options parts) parts.
Proof.
  unfold sortedParts. destruct (ExportOptions.groupByMaterial options);
    [|reflexivity].
  induction parts as [|p parts IH]; simpl; [reflexivity|].
  rewrite insert_sorted_permutation. now apply perm_skip.
Qed.

Lemma csvHeaders_escaped options :
  csvHeaders options = map escapeCSV (csvHeaders options).
Proof.
  unfold csvHeaders.
  destruct (ExportOptions.format options),
    (ExportOptions.includeLabels options); reflexivity.
Qed.

Lemma grain_name_plain g : plain (grain_name g) = true.
Proof. destruct g as [[]|]; reflexivity. Qed.

Lemma csvRow_escaped options p :
  csvRow options p = map escapeCSV (csvCells options p).
Proof.
  unfold csvRow, csvCells.
  destruct (ExportOptions.format options); cbn [map app];
    rewrite ?(escapeCSV_plain (Number_toString _))
      by apply Number_toString_plain;
    rewrite ?(escapeCSV_plain (grain_name _)) by apply grain_name_plain;
    try (destruct (ListedPart.cabinetName p) as [[|c r]|];
         destruct (ExportOptions.includeLabels options); reflexivity);
    destruct (ExportOptions.includeEdgeBanding options); reflexivity.
Qed.

Lemma generateCutListCSV_records parts options :
  generateCutListCSV localeCompare parts options
  = join (String newline "")
      (map record_text
         (csvHeaders options
          :: map (csvCells options)
                 (sortedParts localeCompare options parts))).
Proof.
  unfold generateCutListCSV. cbn [map]. unfold record_text at 1.
  rewrite <- csvHeaders_escaped. do 2 f_equal.
  rewrite map_map. apply map_ext. intros p.
  unfold record_text. now rewrite csvRow_escaped.
Qed.

Lemma csvCells_not_empty options p : csvCells options p <> [].
Proof.
  unfold csvCells. destruct (ExportOptions.format options); discriminate.
Qed.

Lemma csvHeaders_not_empty options : csvHeaders options <> [].
Proof.
  unfold csvHeaders. destruct (ExportOptions.format options); discriminate.
Qed.

Lemma read_generateCutListCSV parts options :
  read_csv (generateCutListCSV localeCompare parts options)
  = csvHeaders options
    :: map (csvCells options) (sortedParts localeCompare options parts).
Proof.
  rewrite generateCutListCSV_records. apply read_records.
  constructor; [apply csvHeaders_not_empty|].
  apply Forall_forall. intros r Hr. apply in_map_iff in Hr as (p & <- & _).
  apply csvCells_not_empty.
Qed.

Lemma csvCells_length options p :
  List.length (csvCells options p) = List.length (csvHeaders options)
  <-> (ExportOptions.format options = cutlist_optimizer ->
       ExportOptions.includeLabels options = true -> labelled p = true).
Proof.
  unfold csvCells, csvHeaders, labelled.
  destruct (ExportOptions.format options);
    try (split; [discriminate|reflexivity]).
  destruct (ListedPart.cabinetName p) as [[|c r]|],
    (ExportOptions.includeLabels options); cbn;
    (split; [intros E; try discriminate E; auto
            |intros H; try reflexivity;
             specialize (H eq_refl eq_refl); discriminate H]).
Qed.

End ExportFacts.

(** The export of [generateCutListCSV] reads back: a reader of
    comma-separated text finds the header and then, for every part in the
    order of the export, the texts of its cells as they were before
    escaping, whatever commas, double quotes and line feeds the names
    contain. Every part has one row. *)
Theorem generateCutListCSV_reads_back
  (localeCompare : string -> string -> Z) (parts : list ListedPart.t)
  (options : ExportOptions.t) :
  read_csv (generateCutListCSV localeCompare parts options)
  = csvHeaders options
    :: map (csvCells options) (sortedParts localeCompare options parts)
  /\ Permutation (sortedParts localeCompare options parts) parts.
Proof.
  split; [apply read_generateCutListCSV|apply sortedParts_permutation].
Qed.

(** The rows of the export have as many fields as the header exactly
    when, in the [cutlist-optimizer] format with labels, every part carries
    the non-empty name of a cabinet; a part without one gets a row that is
    one field short. *)
Theorem generateCutListCSV_rectangular
  (localeCompare : string -> string -> Z) (parts : list ListedPart.t)
  (options : ExportOptions.t) :
  Forall (fun row => List.length row = List.length (csvHeaders options))
         (read_csv (generateCutListCSV localeCompare parts options))
  <-> (ExportOptions.format options = cutlist_optimizer ->
       ExportOptions.includeLabels options = true ->
       Forall (fun p => labelled p = true) parts).
Proof.
  rewrite read_generateCutListCSV.
  pose proof (sortedParts_permutation localeCompare options parts) as Hperm.
  split.
  - intros Hrows Hformat Hlabels.
    inversion Hrows as [|? ? _ Hrest]; subst.
    apply Forall_forall. intros p Hp.
    apply (Permutation_in _ (Permutation_sym Hperm)) in Hp.
    rewrite Forall_forall in Hrest.
    apply (csvCells_length options p); auto.
    apply Hrest. now apply in_map.
  - intros Hparts. constructor; [reflexivity|].
    apply Forall_forall. intros r Hr.
    apply in_map_iff in Hr as (p & <- & Hp).
    apply (Permutation_in _ Hperm) in Hp.
    apply csvCells_length. intros Hformat Hlabels.
    specialize (Hparts Hformat Hlabels). rewrite Forall_forall in Hparts.
    now apply Hparts.
Qed.

(** [escapeCSV] loses nothing: two texts with the same escaped form
    are the same text. *)
Theorem escapeCSV_injective (a b : string) :
  escapeCSV a = escapeCSV b -> a = b.
Proof.
  intros E.
  assert (H : forall f, read_csv (escapeCSV f) = [[f]]).
  { intros f. unfold read_csv.
    rewrite <- (append_empty (escapeCSV f)).
    now rewrite read_field by exact I. }
  pose proof (H a) as Ha. rewrite E, H in Ha. congruence.
Qed.

Lemma escapeCSV_injective_witness :
  String "a" (String dquote "b") = String "a" (String dquote "b").
Proof.
  apply (escapeCSV_injective (String "a" (String dquote "b"))
                             (String "a" (String dquote "b"))).
  reflexivity.
Defined.

(* ================================================================== *)
(** * Consolidation                                                     *)
(* ================================================================== *)

Lemma add_quantity_key (p : ListedPart.t) (quantity : number) :
  consolidationKey (add_quantity p quantity) = consolidationKey p.
Proof. reflexivity. Qed.

Lemma add_quantities_key (quantities : list number) (p : ListedPart.t) :
  consolidationKey (fold_left add_quantity quantities p) = consolidationKey p.
Proof.
  revert p. induction quantities as [|q qs IH]; intros p; simpl;
    [reflexivity|].
  now rewrite IH, add_quantity_key.
Qed.

Lemma consolidate_step_first (p : ListedPart.t) (k : string)
  (v : ListedPart.t) (others : object ListedPart.t) :
  String.eqb (consolidationKey p) k = true ->
  consolidate_step ((k, v) :: others) p
  = (k, add_quantity v (quantity_of p)) :: others.
Proof.
  intros E. unfold consolidate_step. cbn [get set]. now rewrite E.
Qed.

Lemma consolidate_step_behind (p : ListedPart.t) (k : string)
  (v : ListedPart.t) (others : object ListedPart.t) :
  String.eqb (consolidationKey p) k = false ->
  consolidate_step ((k, v) :: others) p = (k, v) :: consolidate_step others p.
Proof.
  intros E. unfold consolidate_step. cbn [get set]. rewrite E.
  now destruct (get (consolidationKey p) others).
Qed.

(** The loop over a [Map] whose first entry is [(k, v)]: the parts filed
    under [k] add their quantities to [v], the others go to the entries
    behind it. *)
Lemma consolidate_first (parts : list ListedPart.t) (k : string)
  (v : ListedPart.t) (others : object ListedPart.t) :
  fold_left consolidate_step parts ((k, v) :: others)
  = (k, fold_left add_quantity
          (map quantity_of
               (filter (fun p => String.eqb (consolidationKey p) k) parts))
          v)
    :: fold_left consolidate_step
         (filter (fun p => negb (String.eqb (consolidationKey p) k)) parts)
         others.
Proof.
  revert v others. induction parts as [|p parts IH]; intros v others;
    [reflexivity|].
  cbn [fold_left filter].
  destruct (String.eqb (consolidationKey p) k) eqn:E; cbn [negb map fold_left].
  - rewrite consolidate_step_first by exact E. exact (IH _ _).
  - rewrite consolidate_step_behind by exact E. exact (IH _ _).
Qed.

Lemma consolidateParts_cons (p : ListedPart.t) (parts : list ListedPart.t) :
  consolidateParts (p :: parts)
  = fold_left add_quantity
      (map quantity_of (filter (fun q => same_key q p) parts)) p
    :: consolidateParts (filter (fun q => negb (same_key q p)) parts).
Proof.
  unfold consolidateParts. cbn [fold_left].
  change (consolidate_step [] p) with [(consolidationKey p, p)].
  rewrite consolidate_first. reflexivity.
Qed.

Lemma filter_length_le {A : Type} (f : A -> bool) (l : list A) :
  (List.length (filter f l) <= List.length l)%nat.
Proof.
  induction l as [|x l IH]; simpl; [lia|]. destruct (f x); simpl; lia.
Qed.

(** Every key of the result is the key of a part. *)
Lemma consolidateParts_keys (parts : list ListedPart.t) (k : string) :
  In k (map consolidationKey (consolidateParts parts)) ->
  In k (map consolidationKey parts).
Proof.
  remember (List.length parts) as n eqn:En.
  revert parts En. induction n as [n IH] using lt_wf_ind.
  intros [|p parts] En; [intros []|].
  rewrite consolidateParts_cons. cbn [map In].
  rewrite add_quantities_key. intros [Hk|Hk]; [now left|right].
  eapply IH in Hk; [| |reflexivity].
  - apply in_map_iff in Hk as (q & Hq & Hin).
    apply filter_In in Hin as [Hin _]. apply in_map_iff. eauto.
  - subst n. simpl.
    pose proof (filter_length_le (fun q => negb (same_key q p)) parts). lia.
Qed.

Lemma consolidateParts_NoDup (parts : list ListedPart.t) :
  NoDup (map consolidationKey (consolidateParts parts)).
Proof.
  remember (List.length parts) as n eqn:En.
  revert parts En. induction n as [n IH] using lt_wf_ind.
  intros [|p parts] En; [constructor|].
  rewrite consolidateParts_cons. cbn [map].
  rewrite add_quantities_key. constructor.
  - intros Hin. apply consolidateParts_keys in Hin.
    apply in_map_iff in Hin as (q & Hq & Hin).
    apply filter_In in Hin as [_ Hin].
    unfold same_key in Hin. rewrite Hq, String.eqb_refl in Hin.
    discriminate.
  - eapply IH; [|reflexivity]. subst n. simpl.
    pose proof (filter_length_le (fun q => negb (same_key q p)) parts). lia.
Qed.

(** Parts with different keys pass through unchanged. *)
Lemma consolidateParts_distinct (parts : list ListedPart.t) :
  NoDup (map consolidationKey parts) -> consolidateParts parts = parts.
Proof.
  induction parts as [|p parts IH]; intros Hkeys; [reflexivity|].
  inversion Hkeys as [|? ? Hfresh Hrest]; subst.
  rewrite consolidateParts_cons.
  assert (Hnone : forall q, In q parts -> same_key q p = false).
  { intros q Hq. unfold same_key.
    destruct (String.eqb (consolidationKey q) (consolidationKey p)) eqn:E;
      [|reflexivity].
    apply String.eqb_eq in E. exfalso. apply Hfresh. rewrite <- E.
    now apply in_map. }
  assert (Hsame : filter (fun q => same_key q p) parts = []).
  { clear -Hnone. induction parts as [|q parts IH]; [reflexivity|].
    simpl. rewrite (Hnone q) by now left.
    apply IH. intros r Hr. apply Hnone. now right. }
  assert (Hother : filter (fun q => negb (same_key q p)) parts = parts).
  { clear -Hnone. induction parts as [|q parts IH]; [reflexivity|].
    simpl. rewrite (Hnone q) by now left. simpl. f_equal.
    apply IH. intros r Hr. apply Hnone. now right. }
  rewrite Hsame, Hother, IH by assumption. reflexivity.
Qed.

Lemma without_bar_cons (c : ascii) (s : string) :
  without_bar (String c s) = negb (Ascii.eqb "|" c) && without_bar s.
Proof. unfold without_bar. cbn [includes_char]. apply negb_orb. Qed.

(** Two texts cut at their first bar. *)
Lemma split_at_bar (a b x y : string) :
  without_bar a = true -> without_bar b = true ->
  a ++ String "|" x = b ++ String "|" y -> a = b /\ x = y.
Proof.
  revert b. induction a as [|c a IH]; intros [|d b] Ha Hb E.
  - injection E as E. auto.
  - rewrite without_bar_cons in Hb. apply andb_true_iff in Hb as [Hd _].
    injection E as E _. subst d. discriminate.
  - rewrite without_bar_cons in Ha. apply andb_true_iff in Ha as [Hc _].
    injection E as E _. subst c. discriminate.
  - rewrite without_bar_cons in Ha, Hb.
    apply andb_true_iff in Ha as [_ Ha].
    apply andb_true_iff in Hb as [_ Hb].
    injection E as Ecd E. subst d.
    destruct (IH b Ha Hb E) as [-> ->]. auto.
Qed.

Lemma number_without_bar (x : number) :
  without_bar (Number_toString x) = true.
Proof.
  pose proof (Number_toString_characters x) as H.
  induction (Number_toString x) as [|c s IH]; [reflexivity|].
  simpl in H. apply andb_true_iff in H as [Hc Hs].
  rewrite without_bar_cons, IH by assumption.
  destruct (Ascii.eqb "|" c) eqn:E; [|reflexivity].
  apply Ascii.eqb_eq in E. subst c. discriminate.
Qed.

Lemma consolidationKey_same_kind (p q : ListedPart.t) :
  without_bar (CutPart.partName (ListedPart.part p)) = true ->
  without_bar (CutPart.partName (ListedPart.part q)) = true ->
  consolidationKey p = consolidationKey q <-> same_kind p q.
Proof.
  intros Hp Hq. unfold consolidationKey, same_kind. cbv zeta. split.
  - intros E.
    apply split_at_bar in E as [Ename E]; [|assumption|assumption].
    apply split_at_bar in E as [Elength E];
      [|apply number_without_bar|apply number_without_bar].
    apply split_at_bar in E as [Ewidth E];
      [|apply number_without_bar|apply number_without_bar].
    auto.
  - intros (-> & -> & -> & ->). reflexivity.
Qed.

(** [consolidateParts] groups by key and keeps the order of first
    appearance: the first part takes the quantities of the later parts with
    its key, added in their order, and keeps its other fields; the parts
    with other keys are consolidated behind it. *)
Theorem consolidateParts_groups (p : ListedPart.t)
  (parts : list ListedPart.t) :
  consolidateParts (p :: parts)
  = fold_left add_quantity
      (map quantity_of (filter (fun q => same_key q p) parts)) p
    :: consolidateParts (filter (fun q => negb (same_key q p)) parts).
Proof. apply consolidateParts_cons. Qed.

(** The result of [consolidateParts] has no two parts with the same
    key, and consolidating it again changes nothing. *)
Theorem consolidateParts_idempotent (parts : list ListedPart.t) :
  NoDup (map consolidationKey (consolidateParts parts))
  /\ consolidateParts (consolidateParts parts) = consolidateParts parts.
Proof.
  split; [apply consolidateParts_NoDup|].
  apply consolidateParts_distinct, consolidateParts_NoDup.
Qed.

(** When no part name contains a vertical bar, two parts are filed
    under the same key, and so merged by [consolidateParts], exactly when
    they have the same name, the same printed length and width and the same
    material (a missing or empty material counting as [main]); grain, edge
    banding and cabinet name play no part. *)
Theorem consolidationKey_faithful (p q : ListedPart.t) :
  without_bar (CutPart.partName (ListedPart.part p)) = true ->
  without_bar (CutPart.partName (ListedPart.part q)) = true ->
  (same_key p q = true <-> same_kind p q)
  /\ (same_kind p q ->
      consolidateParts [p; q] = [add_quantity p (quantity_of q)])
  /\ (~ same_kind p q -> consolidateParts [p; q] = [p; q]).
Proof.
  intros Hp Hq.
  pose proof (consolidationKey_same_kind p q Hp Hq) as Hkind.
  assert (Hkey : same_key p q = true <-> same_kind p q).
  { unfold same_key. rewrite String.eqb_eq. exact Hkind. }
  split; [exact Hkey|]. split.
  - intros Hsame. rewrite consolidateParts_cons. cbn [filter].
    apply Hkind in Hsame. unfold same_key.
    rewrite Hsame, String.eqb_refl. reflexivity.
  - intros Hdiff. apply consolidateParts_distinct. cbn [map].
    constructor; [|constructor; [intros []|constructor]].
    intros [E|[]]. apply Hdiff, Hkind. now symmetry.
Qed.

(** With a bar in a name, parts of different names, lengths and widths can
    share a key. *)
Example consolidationKey_collision :
  let p := listed "A" 1 2 1 (Some "3|m") None in
  let q := listed "A|1" 2 3 1 (Some "m") None in
  consolidationKey p = consolidationKey q
  /\ consolidateParts [p; q] = [add_quantity p 1].
Proof. split; vm_compute; reflexivity. Qed.

Lemma consolidationKey_faithful_witness :
  let p := listed "Side" 720 560 2 (Some "Oak") (Some "Base 1") in
  let q := listed "Side" 720 560 1 (Some "Oak") (Some "Base 2") in
  consolidateParts [p; q] = [add_quantity p (quantity_of q)].
Proof.
  intros p q.
  refine (proj1 (proj2 (consolidationKey_faithful p q _ _)) _);
    [reflexivity|reflexivity|].
  repeat split; vm_compute; reflexivity.
Defined.

(* ================================================================== *)
(** * Dimensions as text                                                *)
(* ================================================================== *)

Lemma parseFloat_points (s : string) :
  all_chars (Ascii.eqb ".") s = true -> parseFloat s = PrimFloat.nan.
Proof.
  destruct s as [|c s]; [reflexivity|]. cbn [all_chars]. intros H.
  apply andb_true_iff in H as [Hc Hs]. apply Ascii.eqb_eq in Hc. subst c.
  destruct s as [|d s]; [reflexivity|]. cbn [all_chars] in Hs.
  apply andb_true_iff in Hs as [Hd _]. apply Ascii.eqb_eq in Hd. subst d.
  reflexivity.
Qed.

Lemma keep_without_digit (s : string) :
  all_chars (fun c => negb (is_digit c)) s = true ->
  all_chars (Ascii.eqb ".")
    (keep_chars (fun c => is_digit c || Ascii.eqb c ".") s) = true.
Proof.
  induction s as [|c s IH]; [reflexivity|]. cbn [all_chars keep_chars].
  intros H. apply andb_true_iff in H as [Hc Hs].
  apply negb_true_iff in Hc. rewrite Hc. cbn [orb].
  destruct (Ascii.eqb c ".") eqn:E; [|now apply IH].
  cbn [all_chars]. rewrite Ascii.eqb_sym, E. now apply IH.
Qed.

(** A text without a digit is read as 0 by [parseDimension]. *)
Theorem parseDimension_without_digit (input : string) (units : Units) :
  all_chars (fun c => negb (is_digit c)) input = true ->
  parseDimension input units = 0.
Proof.
  intros H. unfold parseDimension.
  rewrite (parseFloat_points _ (keep_without_digit input H)).
  reflexivity.
Qed.

Lemma parseDimension_without_digit_witness :
  parseDimension "n/a" mm = 0.
Proof. apply parseDimension_without_digit. reflexivity. Defined.

Lemma insignificant_cases (c : ascii) :
  significant c = false ->
  is_digit c = false /\ Ascii.eqb c "." = false
  /\ Ascii.eqb dquote c = false /\ Ascii.eqb "i" (lower c) = false.
Proof.
  unfold significant. intros H.
  apply orb_false_iff in H as [H Hi]. apply orb_false_iff in H as [H Hq].
  apply orb_false_iff in H as [Hd Hp].
  rewrite (Ascii.eqb_sym dquote), (Ascii.eqb_sym "i"). auto.
Qed.

(** [parseDimension] skips what stands in front of the number: a
    prefix without digit, point, double quote and letter [i] does not change
    the result. In particular a minus sign is dropped, and a negative
    dimension is read as a positive one. *)
Theorem parseDimension_ignores_prefix (prefix input : string)
  (units : Units) :
  all_chars (fun c => negb (significant c)) prefix = true ->
  parseDimension (prefix ++ input) units = parseDimension input units.
Proof.
  induction prefix as [|c prefix IH]; [reflexivity|].
  cbn [all_chars]. intros H. apply andb_true_iff in H as [Hc Hprefix].
  apply negb_true_iff in Hc.
  apply insignificant_cases in Hc as (Hd & Hp & Hq & Hi).
  rewrite <- (IH Hprefix). unfold parseDimension.
  cbn [append keep_chars includes_char toLowerCase includes starts_with].
  rewrite Hd, Hp, Hq, Hi. reflexivity.
Qed.

Lemma parseDimension_ignores_prefix_witness :
  parseDimension "-5" mm = parseDimension "5" mm.
Proof.
  apply (parseDimension_ignores_prefix "-" "5" mm). reflexivity.
Defined.

Lemma all_from_spec (count : nat) (n : Z) (f : Z -> bool) :
  all_from count n f = true ->
  forall m, (n <= m < n + Z.of_nat count)%Z -> f m = true.
Proof.
  revert n. induction count as [|count IH]; intros n Hall m Hm; [lia|].
  cbn [all_from] in Hall. apply andb_true_iff in Hall as [Hn Hrest].
  destruct (Z.eq_dec m n) as [->|Hne]; [exact Hn|].
  apply (IH (n + 1)%Z Hrest). lia.
Qed.

Lemma whole_numbers_to_9999 :
  all_from (Z.to_nat 10000) 0 whole_number_checks = true.
Proof. vm_compute. reflexivity. Qed.

Lemma whole_number_checked (n : Z) :
  (0 <= n <= 9999)%Z -> whole_number_checks n = true.
Proof.
  intros Hn. apply (all_from_spec _ _ _ whole_numbers_to_9999 n).
  rewrite Z2Nat.id by lia. lia.
Qed.

(** A whole number of millimetres up to 9999, the largest dimension
    the validation limits allow, survives [formatDimension] followed by
    [parseDimension] in millimetres, whether it was formatted in millimetres
    or in inches. *)
Theorem parseDimension_formatDimension (n : Z) :
  (0 <= n <= 9999)%Z ->
  parseDimension (formatDimension (of_Z n) mm) mm = of_Z n
  /\ parseDimension (formatDimension (of_Z n) inches) mm = of_Z n.
Proof.
  intros Hn. pose proof (whole_number_checked n Hn) as H.
  unfold whole_number_checks in H. cbv zeta in H.
  apply andb_true_iff in H as [H _]. apply andb_true_iff in H as [H _].
  apply andb_true_iff in H as [Hmm Hinches].
  split; apply Leibniz.eqb_spec; assumption.
Qed.

Lemma parseDimension_formatDimension_witness :
  parseDimension (formatDimension (of_Z 720) inches) mm = of_Z 720.
Proof.
  exact (proj2 (parseDimension_formatDimension 720 ltac:(lia))).
Defined.

(* ================================================================== *)
(** * The Charta export                                                 *)
(* ================================================================== *)

Lemma chartaRow_escaped (p : CutPart.t) :
  plain (CutPart.partName p) = true ->
  join "," (chartaRow p) = record_text (chartaRow p).
Proof.
  intros Hname. unfold record_text, chartaRow. cbn [map].
  rewrite (escapeCSV_plain (CutPart.partName p)) by exact Hname.
  rewrite !(escapeCSV_plain (toFixed _ _)) by apply toFixed_plain.
  rewrite (escapeCSV_plain (Number_toString _))
    by apply Number_toString_plain.
  reflexivity.
Qed.

Lemma chartaRows_escaped (parts : list CutPart.t) :
  Forall (fun p => plain (CutPart.partName p) = true) parts ->
  map (fun p => join "," (chartaRow p)) parts
  = map record_text (map chartaRow parts).
Proof.
  intros Hparts. rewrite map_map. apply map_ext_in. intros p Hp.
  rewrite Forall_forall in Hparts. apply chartaRow_escaped. now apply Hparts.
Qed.

Lemma chartaRows_not_empty (rows : list (list string))
  (parts : list CutPart.t) :
  Forall (fun r => r <> []) rows ->
  Forall (fun r : list string => r <> []) (rows ++ map chartaRow parts)%list.
Proof.
  intros Hrows. apply Forall_app. split; [exact Hrows|].
  apply Forall_forall. intros r Hr. apply in_map_iff in Hr as (p & <- & _).
  discriminate.
Qed.

(** The Charta export escapes nothing. When no part name contains a
    comma, a double quote or a line feed, a reader finds the header and one
    record of four fields for each part, in order. *)
Theorem chartaCutListCSV_reads_back (parts : list CutPart.t) :
  Forall (fun p => plain (CutPart.partName p) = true) parts ->
  read_csv (chartaCutListCSV parts) = chartaHeaders :: map chartaRow parts.
Proof.
  intros Hparts. unfold chartaCutListCSV.
  rewrite (chartaRows_escaped parts Hparts).
  change (join "," chartaHeaders) with (record_text chartaHeaders).
  change (record_text chartaHeaders :: map record_text (map chartaRow parts))
    with (map record_text (chartaHeaders :: map chartaRow parts)).
  apply read_records.
  apply (chartaRows_not_empty [chartaHeaders]).
  constructor; [discriminate|constructor].
Qed.

Lemma chartaCutListCSV_reads_back_witness :
  read_csv (chartaCutListCSV
              [CutPart.mk "Side" 720 560 2 None None None None])
  = [chartaHeaders; ["Side"; "720.0"; "560.0"; "2"]].
Proof.
  apply (chartaCutListCSV_reads_back
           [CutPart.mk "Side" 720 560 2 None None None None]).
  constructor; [reflexivity|constructor].
Defined.

(** A comma in a part name splits the name in the Charta export: the
    record of that part has five fields, and its length, width and quantity
    stand one column to the right of their headers. *)
Theorem chartaCutListCSV_splits_name (before after : list CutPart.t)
  (p : CutPart.t) (a b : string) :
  Forall (fun q => plain (CutPart.partName q) = true) before ->
  Forall (fun q => plain (CutPart.partName q) = true) after ->
  plain a = true -> plain b = true ->
  CutPart.partName p = a ++ "," ++ b ->
  read_csv (chartaCutListCSV (before ++ p :: after)%list)
  = ((chartaHeaders :: map chartaRow before)
     ++ [a; b; toFixed (CutPart.length p) 1; toFixed (CutPart.width p) 1;
         Number_toString (CutPart.quantity p)]
     :: map chartaRow after)%list.
Proof.
  intros Hbefore Hafter Ha Hb Hname. unfold chartaCutListCSV.
  rewrite map_app. cbn [map].
  rewrite (chartaRows_escaped before Hbefore),
    (chartaRows_escaped after Hafter).
  set (cells := [a; b; toFixed (CutPart.length p) 1;
                 toFixed (CutPart.width p) 1;
                 Number_toString (CutPart.quantity p)]).
  assert (Hcells : join "," (chartaRow p) = record_text cells).
  { unfold record_text, chartaRow, cells. cbn [map join]. rewrite Hname.
    rewrite (escapeCSV_plain a), (escapeCSV_plain b) by assumption.
    rewrite !(escapeCSV_plain (toFixed _ _)) by apply toFixed_plain.
    rewrite (escapeCSV_plain (Number_toString _))
      by apply Number_toString_plain.
    now rewrite !append_assoc. }
  rewrite Hcells.
  change (join "," chartaHeaders) with (record_text chartaHeaders).
  replace (record_text chartaHeaders
           :: (map record_text (map chartaRow before)
               ++ record_text cells
                  :: map record_text (map chartaRow after))%list)
    with (map record_text
            (chartaHeaders
             :: (map chartaRow before
                 ++ cells :: map chartaRow after)%list))
    by (cbn [map]; now rewrite map_app).
  apply read_records.
  constructor; [discriminate|].
  apply Forall_app. split.
  - apply Forall_forall. intros r Hr.
    apply in_map_iff in Hr as (q & <- & _). discriminate.
  - constructor; [discriminate|].
    apply Forall_forall. intros r Hr.
    apply in_map_iff in Hr as (q & <- & _). discriminate.
Qed.

Lemma chartaCutListCSV_splits_name_witness :
  read_csv (chartaCutListCSV
              [CutPart.mk "Shelf, fixed" 564 540 1 None None None None])
  = [chartaHeaders; ["Shelf"; " fixed"; "564.0"; "540.0"; "1"]].
Proof.
  apply (chartaCutListCSV_splits_name [] []
           (CutPart.mk "Shelf, fixed" 564 540 1 None None None None)
           "Shelf" " fixed");
    solve [constructor | reflexivity].
Defined.

(* ================================================================== *)
(** * The cut list of the header                                        *)
(* ================================================================== *)

Section HeaderFacts.
Variable patterns : list (string * CabinetPattern.t).
Variable globalSettings : GlobalSettings.t.
Variable defaultRuleSet : option RuleSet.t.
Variable materials : list Material.t.

Lemma flattenProjectToCutList_app
  (a b : list (string * list ListedPart.t)) :
  flattenProjectToCutList (a ++ b)
  = (flattenProjectToCutList a ++ flattenProjectToCutList b)%list.
Proof. apply flat_map_app. Qed.

Lemma cabinetsWithParts_app (a b : list CabinetInstance.t) :
  cabinetsWithParts (a ++ b) patterns globalSettings defaultRuleSet materials
  = match cabinetsWithParts a patterns globalSettings defaultRuleSet
            materials,
          cabinetsWithParts b patterns globalSettings defaultRuleSet
            materials with
    | Some x, Some y => Some (x ++ y)%list
    | _, _ => None
    end.
Proof.
  induction a as [|cabinet a IH].
  - cbn [app cabinetsWithParts].
    now destruct (cabinetsWithParts b patterns globalSettings defaultRuleSet
                                    materials).
  - cbn [app cabinetsWithParts]. rewrite IH.
    destruct (cabinetsWithParts a patterns globalSettings defaultRuleSet
                                materials),
      (cabinetsWithParts b patterns globalSettings defaultRuleSet materials);
      destruct (find _ patterns) as [[id pattern]|];
      try destruct (headerParts cabinet pattern _ _ _); reflexivity.
Qed.

Lemma allParts_app (a b : list CabinetInstance.t) :
  allParts (Some (a ++ b)%list) patterns globalSettings defaultRuleSet
           materials
  = match allParts (Some a) patterns globalSettings defaultRuleSet materials,
          allParts (Some b) patterns globalSettings defaultRuleSet materials
    with
    | Some x, Some y => Some (x ++ y)%list
    | _, _ => None
    end.
Proof.
  unfold allParts. rewrite cabinetsWithParts_app.
  destruct (cabinetsWithParts a patterns globalSettings defaultRuleSet
                              materials),
    (cabinetsWithParts b patterns globalSettings defaultRuleSet materials);
    cbn [option_map]; try reflexivity.
  now rewrite flattenProjectToCutList_app.
Qed.

Lemma allParts_one (cabinet : CabinetInstance.t) :
  allParts (Some [cabinet]) patterns globalSettings defaultRuleSet materials
  = match patternOf cabinet patterns with
    | None => Some []
    | Some pattern =>
        option_map
          (map (fun p => ListedPart.mk p (Some (CabinetInstance.name cabinet))))
          (headerParts cabinet pattern globalSettings defaultRuleSet
                       materials)
    end.
Proof.
  unfold allParts, patternOf. cbn [cabinetsWithParts].
  destruct (find _ patterns) as [[id pattern]|]; cbn [option_map snd];
    [|reflexivity].
  destruct (headerParts cabinet pattern _ _ _) as [parts|];
    cbn [option_map]; [|reflexivity].
  unfold flattenProjectToCutList. cbn [flat_map].
  rewrite app_nil_r, map_map. reflexivity.
Qed.

Lemma allParts_cons (cabinet : CabinetInstance.t)
  (cabinets : list CabinetInstance.t) :
  allParts (Some (cabinet :: cabinets)) patterns globalSettings
           defaultRuleSet materials
  = match allParts (Some [cabinet]) patterns globalSettings defaultRuleSet
                   materials,
          allParts (Some cabinets) patterns globalSettings defaultRuleSet
                   materials with
    | Some x, Some y => Some (x ++ y)%list
    | _, _ => None
    end.
Proof. apply (allParts_app [cabinet] cabinets). Qed.

Lemma allParts_sound (cabinets : list CabinetInstance.t)
  (parts : list ListedPart.t) :
  allParts (Some cabinets) patterns globalSettings defaultRuleSet materials
  = Some parts ->
  Forall
    (fun p =>
       exists cabinet pattern computed,
         In cabinet cabinets
         /\ patternOf cabinet patterns = Some pattern
         /\ headerParts cabinet pattern globalSettings defaultRuleSet
                        materials = Some computed
         /\ In (ListedPart.part p) computed
         /\ ListedPart.cabinetName p = Some (CabinetInstance.name cabinet))
    parts.
Proof.
  revert parts. induction cabinets as [|cabinet cabinets IH]; intros parts.
  - intros E. injection E as <-. constructor.
  - rewrite allParts_cons, allParts_one.
    destruct (allParts (Some cabinets) _ _ _ _) as [rest|] eqn:Erest.
    2:{ destruct (patternOf cabinet patterns);
          [destruct (headerParts cabinet _ _ _ _)|]; discriminate. }
    specialize (IH rest eq_refl).
    assert (Hrest : Forall
      (fun p =>
         exists c pattern computed,
           In c (cabinet :: cabinets)
           /\ patternOf c patterns = Some pattern
           /\ headerParts c pattern globalSettings defaultRuleSet materials
              = Some computed
           /\ In (ListedPart.part p) computed
           /\ ListedPart.cabinetName p = Some (CabinetInstance.name c))
      rest).
    { eapply Forall_impl; [|exact IH].
      intros p (c & pattern & computed & Hc & H).
      exists c, pattern, computed. split; [now right|exact H]. }
    destruct (patternOf cabinet patterns) as [pattern|] eqn:Epattern.
    + destruct (headerParts cabinet pattern _ _ _) as [computed|] eqn:Eparts;
        [|discriminate].
      cbn [option_map]. intros E. injection E as <-.
      apply Forall_app. split; [|exact Hrest].
      apply Forall_forall. intros p Hp.
      apply in_map_iff in Hp as (part & <- & Hpart).
      exists cabinet, pattern, computed. cbn.
      repeat split; auto using in_eq.
    + intros E. injection E as <-. exact Hrest.
Qed.

End HeaderFacts.

(** The cut list of the header is put together cabinet by cabinet:
    the list of a project is the list of its first cabinets followed by the
    list of the others, a cabinet whose pattern is not in the library gives
    no part, and a cabinet with a pattern gives the parts that
    [calculateParts] computes for it, each under the name of the cabinet. *)
Theorem allParts_by_cabinet
  (patterns : list (string * CabinetPattern.t))
  (globalSettings : GlobalSettings.t) (defaultRuleSet : option RuleSet.t)
  (materials : list Material.t) (first others : list CabinetInstance.t)
  (cabinet : CabinetInstance.t) :
  allParts (Some (first ++ others)%list) patterns globalSettings
           defaultRuleSet materials
  = match allParts (Some first) patterns globalSettings defaultRuleSet
                   materials,
          allParts (Some others) patterns globalSettings defaultRuleSet
                   materials with
    | Some x, Some y => Some (x ++ y)%list
    | _, _ => None
    end
  /\ allParts (Some [cabinet]) patterns globalSettings defaultRuleSet
              materials
     = match patternOf cabinet patterns with
       | None => Some []
       | Some pattern =>
           option_map
             (map (fun p =>
                     ListedPart.mk p (Some (CabinetInstance.name cabinet))))
             (headerParts cabinet pattern globalSettings defaultRuleSet
                          materials)
       end.
Proof. split; [apply allParts_app|apply allParts_one]. Qed.

(** When every cabinet of the project has a name, the export of the
    header with labels has as many fields in every row as in its header. *)
Theorem header_export_rectangular
  (localeCompare : string -> string -> Z)
  (patterns : list (string * CabinetPattern.t))
  (globalSettings : GlobalSettings.t) (defaultRuleSet : option RuleSet.t)
  (materials : list Material.t) (cabinets : list CabinetInstance.t)
  (parts : list ListedPart.t) :
  allParts (Some cabinets) patterns globalSettings defaultRuleSet materials
  = Some parts ->
  Forall (fun cabinet => CabinetInstance.name cabinet <> "") cabinets ->
  Forall (fun row => List.length row = List.length (csvHeaders labelledExport))
         (read_csv (generateCutListCSV localeCompare parts labelledExport)).
Proof.
  intros Hparts Hnames.
  rewrite read_generateCutListCSV.
  constructor; [reflexivity|].
  apply Forall_forall. intros r Hr.
  apply in_map_iff in Hr as (p & <- & Hp).
  apply (Permutation_in _ (sortedParts_permutation _ _ _)) in Hp.
  apply csvCells_length. intros _ _.
  pose proof (allParts_sound _ _ _ _ _ _ Hparts) as Hsound.
  rewrite Forall_forall in Hsound, Hnames.
  destruct (Hsound p Hp) as (cabinet & _ & _ & Hc & _ & _ & _ & Hname).
  unfold labelled. rewrite Hname.
  specialize (Hnames cabinet Hc).
  now destruct (CabinetInstance.name cabinet).
Qed.

Lemma header_export_rectangular_witness :
  Forall (fun row => List.length row = List.length (csvHeaders labelledExport))
         (read_csv (generateCutListCSV by_code_units sampleCutList
                                       labelledExport)).
Proof.
  apply (header_export_rectangular by_code_units samplePatterns settings18
           None library sampleProject sampleCutList).
  - vm_compute. reflexivity.
  - constructor; [discriminate|constructor].
Defined.

(* ================================================================== *)
(** * The cut list of the modal                                         *)
(* ================================================================== *)

(** The cut list of the modal is the cut list of the header computed
    with the selected rule set and an empty material library: the modal
    passes no materials to [calculateParts], so the thickness of a library
    material never reaches [part_thickness] there. *)
Theorem modalParts_without_library
  (cabinets : list CabinetInstance.t)
  (patterns : list (string * CabinetPattern.t))
  (globalSettings : GlobalSettings.t) (selectedRuleSet : RuleSet.t) :
  modalParts (Some cabinets) true (Some selectedRuleSet) patterns
             globalSettings
  = allParts (Some cabinets) patterns globalSettings (Some selectedRuleSet)
             [].
Proof.
  cbn [modalParts].
  induction cabinets as [|cabinet cabinets IH]; [reflexivity|].
  rewrite allParts_cons, allParts_one, <- IH. unfold patternOf.
  cbn [modalLoop].
  destruct (find _ patterns) as [[id pattern]|]; cbn [option_map snd].
  - change (headerParts cabinet pattern globalSettings (Some selectedRuleSet)
                        [])
      with (calculateParts pattern (CabinetInstance.dimensions cabinet)
              globalSettings (CabinetInstance.variableOverrides cabinet)
              (CabinetInstance.zoneProportions cabinet)
              (Some selectedRuleSet) None).
    destruct (calculateParts pattern _ _ _ _ _ None); cbn [option_map];
      destruct (modalLoop cabinets patterns globalSettings selectedRuleSet);
      reflexivity.
  - destruct (modalLoop cabinets patterns globalSettings selectedRuleSet);
      reflexivity.
Qed.

(* ================================================================== *)
(** * Parts and rules                                                   *)
(* ================================================================== *)




(* ================================================================== *)
(** * Grouping by material                                              *)
(* ================================================================== *)

Section Grouping.
Variable localeCompare : string -> string -> Z.
Hypothesis total :
  forall a b, (localeCompare a b <= 0 \/ localeCompare b a <= 0)%Z.

Lemma insert_sorted_head (x p : ListedPart.t) (l : list ListedPart.t) :
  in_material_order localeCompare x p ->
  HdRel (in_material_order localeCompare) x l ->
  HdRel (in_material_order localeCompare) x (insert_sorted localeCompare p l).
Proof.
  intros Hxp Hxl. destruct l as [|q l]; cbn [insert_sorted].
  - now constructor.
  - match goal with |- context [if ?b then _ else _] => destruct b end.
    + now constructor.
    + constructor. now inversion Hxl.
Qed.

Lemma insert_sorted_Sorted (p : ListedPart.t) (l : list ListedPart.t) :
  Sorted (in_material_order localeCompare) l ->
  Sorted (in_material_order localeCompare) (insert_sorted localeCompare p l).
Proof.
  induction l as [|q l IH]; intros Hl; cbn [insert_sorted].
  - repeat constructor.
  - match goal with |- context [if ?b then _ else _] =>
      destruct b eqn:E end.
    + constructor; [exact Hl|]. constructor.
      unfold in_material_order. now apply Z.leb_le.
    + inversion Hl as [|? ? Hsorted Hhead]; subst.
      constructor; [now apply IH|].
      apply insert_sorted_head; [|exact Hhead].
      unfold in_material_order. apply Z.leb_gt in E.
      match type of E with
      | (0 < localeCompare ?a ?b)%Z => destruct (total a b); [lia|assumption]
      end.
Qed.

Lemma sortedParts_Sorted (options : ExportOptions.t)
  (parts : list ListedPart.t) :
  ExportOptions.groupByMaterial options = true ->
  Sorted (in_material_order localeCompare)
         (sortedParts localeCompare options parts).
Proof.
  intros Hgroup. unfold sortedParts. rewrite Hgroup.
  induction parts as [|p parts IH]; cbn [fold_right]; [constructor|].
  now apply insert_sorted_Sorted.
Qed.

End Grouping.

Lemma by_code_units_total (a b : string) :
  (by_code_units a b <= 0 \/ by_code_units b a <= 0)%Z.
Proof.
  unfold by_code_units, String.ltb.
  rewrite (String.compare_antisym a b).
  destruct (String.compare b a) eqn:E; cbn [CompOpp].
  - apply String.compare_eq_iff in E. subst b.
    rewrite String.eqb_refl. left. lia.
  - right. lia.
  - left. lia.
Qed.

Lemma compare_refl (a : string) : String.compare a a = Eq.
Proof.
  pose proof (String.compare_antisym a a) as H.
  destruct (String.compare a a); [reflexivity|discriminate|discriminate].
Qed.

Lemma by_code_units_order (a b : string) :
  (by_code_units a b <= 0)%Z <-> String.compare a b <> Gt.
Proof.
  unfold by_code_units, String.ltb.
  destruct (String.compare a b) eqn:E.
  - apply String.compare_eq_iff in E. subst b. rewrite String.eqb_refl.
    split; [discriminate|lia].
  - split; [discriminate|lia].
  - destruct (String.eqb a b) eqn:Eeq.
    + apply String.eqb_eq in Eeq. subst b. rewrite compare_refl in E.
      discriminate.
    + split; [lia|congruence].
Qed.

Lemma ascii_compare_trans (a b c : ascii) (r : comparison) :
  Ascii.compare a b = r -> Ascii.compare b c = r -> Ascii.compare a c = r.
Proof.
  unfold Ascii.compare. destruct r; intros Hab Hbc.
  - apply N.compare_eq_iff in Hab, Hbc. apply N.compare_eq_iff. congruence.
  - exact (N.lt_trans _ _ _ Hab Hbc).
  - rewrite N.compare_gt_iff in *. exact (N.lt_trans _ _ _ Hbc Hab).
Qed.

Lemma compare_not_Gt_trans (a b c : string) :
  String.compare a b <> Gt -> String.compare b c <> Gt ->
  String.compare a c <> Gt.
Proof.
  revert b c. induction a as [|x a IH]; intros [|y b] [|z c];
    cbn [String.compare]; try congruence.
  destruct (Ascii.compare x y) eqn:Exy; [| |congruence];
    destruct (Ascii.compare y z) eqn:Eyz; try congruence.
  - rewrite (ascii_compare_trans x y z Eq Exy Eyz). apply IH.
  - apply Ascii.compare_eq_iff in Exy. subst y. rewrite Eyz. congruence.
  - apply Ascii.compare_eq_iff in Eyz. subst z. rewrite Exy. congruence.
  - rewrite (ascii_compare_trans x y z Lt Exy Eyz). congruence.
Qed.

Lemma by_code_units_transitive (a b c : string) :
  (by_code_units a b <= 0)%Z -> (by_code_units b c <= 0)%Z ->
  (by_code_units a c <= 0)%Z.
Proof.
  rewrite !by_code_units_order. apply compare_not_Gt_trans.
Qed.

(** With [groupByMaterial], and a [localeCompare] that is a consistent
    comparison (any two texts are comparable, and the order is transitive),
    the rows of the export are the parts sorted by material, a part without
    material counting as [Main]: each row comes before all the rows below it
    in that order. *)
Theorem generateCutListCSV_groups_by_material
  (localeCompare : string -> string -> Z) (options : ExportOptions.t)
  (parts : list ListedPart.t) :
  (forall a b, (localeCompare a b <= 0 \/ localeCompare b a <= 0)%Z) ->
  (forall a b c, (localeCompare a b <= 0)%Z -> (localeCompare b c <= 0)%Z ->
                 (localeCompare a c <= 0)%Z) ->
  ExportOptions.groupByMaterial options = true ->
  exists rows,
    read_csv (generateCutListCSV localeCompare parts options)
    = csvHeaders options :: map (csvCells options) rows
    /\ Permutation rows parts
    /\ StronglySorted (in_material_order localeCompare) rows.
Proof.
  intros Htotal Htransitive Hgroup.
  exists (sortedParts localeCompare options parts).
  split; [apply read_generateCutListCSV|].
  split; [apply sortedParts_permutation|].
  apply Sorted_StronglySorted.
  - intros p q r. unfold in_material_order. apply Htransitive.
  - now apply sortedParts_Sorted.
Qed.

Lemma generateCutListCSV_groups_by_material_witness :
  exists rows,
    read_csv (generateCutListCSV by_code_units
                [ listed "Door" 700 400 1 (Some "Oak") None;
                  listed "Side" 720 560 2 None None;
                  listed "Back" 720 600 1 (Some "HDF") None ]
                labelledExport)
    = csvHeaders labelledExport :: map (csvCells labelledExport) rows
    /\ Permutation rows
         [ listed "Door" 700 400 1 (Some "Oak") None;
           listed "Side" 720 560 2 None None;
           listed "Back" 720 600 1 (Some "HDF") None ]
    /\ StronglySorted (in_material_order by_code_units) rows.
Proof.
  apply (generateCutListCSV_groups_by_material by_code_units labelledExport).
  - exact by_code_units_total.
  - exact by_code_units_transitive.
  - reflexivity.
Defined.

(* ================================================================== *)
(** * What overrides what in the context of the part rules              *)
(* ================================================================== *)

Section AssignFacts.
Context {V : Type}.
Implicit Types (o : object V) (k : string) (v : V).

(** A key that is assigned takes its value from the assignments alone. *)
Lemma get_assign_in k o o' (es : list (string * V)) :
  In k (map fst es) -> get k (assign o es) = get k (assign o' es).
Proof.
  unfold assign. revert o o'.
  induction es as [|[k' w] es IH]; intros o o' Hin; [contradiction|].
  cbn [fold_left fst snd].
  destruct (in_dec string_dec k (map fst es)) as [Hlater|Hlast].
  - now apply IH.
  - change (get k (assign (set k' w o) es) = get k (assign (set k' w o') es)).
    rewrite !get_assign_other by assumption.
    destruct Hin as [Hk|Hk]; [|contradiction]. cbn [fst] in Hk. subst k'.
    now rewrite !get_set_same.
Qed.

Lemma get_assign_value k v o (es : list (string * V)) :
  (forall w, In (k, w) es -> w = v) -> In k (map fst es) ->
  get k (assign o es) = Some v.
Proof.
  unfold assign. revert o.
  induction es as [|[k' w] es IH]; intros o Hvalue Hin; [contradiction|].
  cbn [fold_left fst snd].
  destruct (in_dec string_dec k (map fst es)) as [Hlater|Hlast].
  - apply IH; [|assumption]. intros w' Hw'. apply Hvalue. now right.
  - change (get k (assign (set k' w o) es) = Some v).
    rewrite get_assign_other by assumption.
    destruct Hin as [Hk|Hk]; [|contradiction]. cbn [fst] in Hk. subst k'.
    rewrite get_set_same. f_equal. apply Hvalue. now left.
Qed.

End AssignFacts.

Lemma insert_index_complete n k l x :
  x = k \/ In x (map snd l) -> In x (map snd (insert_index n k l)).
Proof.
  induction l as [|[m h] l IH]; simpl.
  - intuition.
  - destruct (n <? m)%N; simpl; intuition.
Qed.

Lemma partition_keys_complete keys x :
  In x keys ->
  In x (map snd (fst (partition_keys keys)) ++ snd (partition_keys keys))%list.
Proof.
  induction keys as [|k keys IH]; simpl; [tauto|].
  destruct (partition_keys keys) as [idx str]; simpl in *.
  intros Hin. rewrite in_app_iff in *.
  destruct (array_index k); simpl.
  - destruct Hin as [->|Hin].
    + left. apply insert_index_complete. now left.
    + destruct (IH Hin) as [H|H]; [left|now right].
      apply insert_index_complete. now right.
  - destruct Hin as [->|Hin]; [right; now left|].
    destruct (IH Hin); [now left|right; now right].
Qed.

Lemma Object_keys_complete {V : Type} (o : object V) k :
  In k (map fst o) -> In k (Object_keys o).
Proof.
  unfold Object_keys. intros H. apply partition_keys_complete in H.
  now destruct (partition_keys (map fst o)).
Qed.

Lemma get_some_key {V : Type} (o : object V) k v :
  get k o = Some v -> In k (map fst o).
Proof.
  induction o as [|[k' w] o IH]; simpl; [discriminate|].
  destruct (String.eqb k k') eqn:E.
  - apply String.eqb_eq in E. now left.
  - intros H. right. now apply IH.
Qed.

Lemma Object_entries_value {V : Type} (o : object V) k v w :
  get k o = Some v -> In (k, w) (Object_entries o) -> w = v.
Proof.
  unfold Object_entries. intros Hget Hin.
  apply in_flat_map in Hin as (k' & _ & Hin).
  destruct (get k' o) as [v'|] eqn:E; [|contradiction].
  destruct Hin as [Heq|[]]. injection Heq as -> ->. congruence.
Qed.

Lemma Object_entries_complete {V : Type} (o : object V) k v :
  get k o = Some v -> In k (map fst (Object_entries o)).
Proof.
  intros Hget. unfold Object_entries.
  apply in_map_iff. exists (k, v). split; [reflexivity|].
  apply in_flat_map. exists k. split.
  - apply Object_keys_complete. now apply (get_some_key o k v).
  - rewrite Hget. now left.
Qed.

(** [{ ...o, ...overrides }] reads a key of [overrides] from there. *)
Lemma get_spread {V : Type} (o overrides : object V) k v :
  get k overrides = Some v ->
  get k (assign o (Object_entries overrides)) = Some v.
Proof.
  intros Hget. apply get_assign_value.
  - intros w. now apply Object_entries_value.
  - now apply (Object_entries_complete overrides k v).
Qed.

Lemma get_spread_other {V : Type} (o overrides : object V) k :
  get k overrides = None ->
  get k (assign o (Object_entries overrides)) = get k o.
Proof.
  intros Hget. apply get_assign_other. intros Hin.
  apply Object_entries_sound in Hin. now apply get_none_fresh in Hget.
Qed.

(** The variables of the part rules are layered: the zone heights are
    assigned last, so that a variable override of a zone-height name has no
    effect; any other variable override takes the place of the built-in
    variable or pattern variable of its name; and what is not overridden is
    as [buildExpressionContext] made it. *)
Theorem partsContext_layers (pattern : CabinetPattern.t)
  (dimensions : Dimensions.t) (globalSettings : GlobalSettings.t)
  (overrides : object number) (zoneProportions : option (list number))
  (ruleSet : option RuleSet.t) (key : string) :
  let internalHeight :=
    Dimensions.height dimensions
    - 2 * GlobalSettings.materialThickness globalSettings in
  let zoneNames := map fst (zoneHeights pattern internalHeight zoneProportions) in
  let context :=
    partsContext pattern dimensions globalSettings (Some overrides)
                 zoneProportions ruleSet in
  (In key zoneNames ->
   get key context
   = get key (partsContext pattern dimensions globalSettings None
                           zoneProportions ruleSet))
  /\ (~ In key zoneNames ->
      forall v, get key overrides = Some v -> get key context = Some v)
  /\ (~ In key zoneNames ->
      get key overrides = None ->
      get key context
      = get key (buildExpressionContext dimensions globalSettings pattern
                                        ruleSet)).
Proof.
  cbv zeta. unfold partsContext. repeat split.
  - intros Hin. now apply get_assign_in.
  - intros Hout v Hget. rewrite get_assign_other by assumption.
    now apply get_spread.
  - intros Hout Hget. rewrite get_assign_other by assumption.
    now apply get_spread_other.
Qed.

Lemma partsContext_layers_witness :
  get "zone_0_height"
      (partsContext twoZones cabinet720 settings18
                    (Some [("zone_0_height", 5); ("total_depth", 500)])
                    None None)
  = get "zone_0_height"
        (partsContext twoZones cabinet720 settings18 None None None)
  /\ get "total_depth"
         (partsContext twoZones cabinet720 settings18
                       (Some [("zone_0_height", 5); ("total_depth", 500)])
                       None None)
     = Some 500.
Proof.
  refine (conj _ _).
  - refine (proj1 (partsContext_layers twoZones cabinet720 settings18
                     [("zone_0_height", 5); ("total_depth", 500)]
                     None None "zone_0_height") _).
    vm_compute. now left.
  - refine (proj1 (proj2 (partsContext_layers twoZones cabinet720 settings18
                     [("zone_0_height", 5); ("total_depth", 500)]
                     None None "total_depth")) _ 500 eq_refl).
    vm_compute. intuition discriminate.
Defined.

(* ================================================================== *)
(** * A variable name evaluates to the value of the variable            *)
(* ================================================================== *)

Lemma name_character_facts (c : ascii) :
  name_character c = true ->
  lower c = c /\ is_space c = false /\ is_syntax_character c = false.
Proof.
  destruct c as [[] [] [] [] [] [] [] []]; intros H; vm_compute in H;
    try discriminate H; repeat split; reflexivity.
Qed.

Lemma positional_character_lower (c : ascii) :
  positional_character c = true -> lower c = c.
Proof.
  destruct c as [[] [] [] [] [] [] [] []]; intros H; vm_compute in H;
    try discriminate H; reflexivity.
Qed.

Lemma name_start_not_positional (c : ascii) :
  name_start c = true -> positional_character c = false.
Proof.
  destruct c as [[] [] [] [] [] [] [] []]; intros H; vm_compute in H;
    try discriminate H; reflexivity.
Qed.

Lemma variable_name_characters (s : string) :
  variable_name s = true -> all_chars name_character s = true.
Proof.
  destruct s as [|c s]; [discriminate|]. cbn [variable_name all_chars].
  intros H. apply andb_true_iff in H as [Hc Hs].
  unfold name_character at 1. now rewrite Hc, Hs.
Qed.

Lemma toLowerCase_name (s : string) :
  all_chars name_character s = true -> toLowerCase s = s.
Proof.
  induction s as [|c s IH]; [reflexivity|]. cbn [all_chars toLowerCase].
  intros H. apply andb_true_iff in H as [Hc Hs].
  destruct (name_character_facts c Hc) as (-> & _ & _). now rewrite IH.
Qed.

Lemma trimStart_name (s : string) :
  all_chars name_character s = true -> trimStart s = s.
Proof.
  destruct s as [|c s]; [reflexivity|]. cbn [all_chars trimStart].
  intros H. apply andb_true_iff in H as [Hc _].
  destruct (name_character_facts c Hc) as (_ & -> & _). reflexivity.
Qed.

Lemma trimEnd_name (s : string) :
  all_chars name_character s = true -> trimEnd s = s.
Proof.
  induction s as [|c s IH]; [reflexivity|]. cbn [all_chars trimEnd].
  intros H. apply andb_true_iff in H as [Hc Hs].
  rewrite (IH Hs).
  destruct (name_character_facts c Hc) as (_ & -> & _). now destruct s.
Qed.

(** A variable name is its own prepared text. *)
Lemma prepared_name (s : string) :
  variable_name s = true -> trim (toLowerCase s) = s.
Proof.
  intros H. apply variable_name_characters in H.
  unfold trim. now rewrite toLowerCase_name, trimStart_name, trimEnd_name.
Qed.

Lemma RegExp_literal_name (s : string) :
  variable_name s = true -> RegExp_literal s = true.
Proof.
  intros H. apply variable_name_characters in H. unfold RegExp_literal.
  apply (all_chars_weaken name_character); [|exact H].
  intros c Hc. now destruct (name_character_facts c Hc) as (_ & _ & ->).
Qed.

Lemma matches_at_shorter (p s : string) :
  (String.length s < String.length p)%nat -> matches_at p s = false.
Proof.
  revert s. induction p as [|a p IH]; intros [|c s];
    cbn [String.length matches_at]; intros H; try lia; try reflexivity.
  rewrite IH by lia. apply andb_false_r.
Qed.

Lemma matches_at_same_length (p s : string) :
  all_chars name_character p = true -> all_chars name_character s = true ->
  String.length p = String.length s -> matches_at p s = true -> p = s.
Proof.
  revert s. induction p as [|a p IH]; intros [|c s]; try discriminate;
    [reflexivity|].
  cbn [all_chars String.length matches_at]. intros Hp Hs Hlength Hmatch.
  apply andb_true_iff in Hp as [Ha Hp]. apply andb_true_iff in Hs as [Hc Hs].
  apply andb_true_iff in Hmatch as [Hac Hmatch].
  destruct (name_character_facts a Ha) as (Ea & _ & _).
  destruct (name_character_facts c Hc) as (Ec & _ & _).
  rewrite Ea, Ec in Hac. apply Ascii.eqb_eq in Hac. subst c.
  f_equal. apply IH; auto.
Qed.

Lemma matches_at_refl (p : string) : matches_at p p = true.
Proof.
  induction p as [|a p IH]; [reflexivity|]. cbn [matches_at].
  now rewrite Ascii.eqb_refl, IH.
Qed.

Lemma replace_from_nowhere (p r s : string) :
  matches_nowhere p s = true -> replace_from p r 0 s = s.
Proof.
  induction s as [|c s IH]; [reflexivity|].
  cbn [matches_nowhere replace_from]. intros H.
  apply andb_true_iff in H as [Hhere Hlater].
  apply negb_true_iff in Hhere. rewrite Hhere. now rewrite IH.
Qed.

Lemma replace_from_skip (p r s : string) (k : nat) :
  (String.length s <= k)%nat -> replace_from p r k s = "".
Proof.
  revert k. induction s as [|c s IH]; intros k; [reflexivity|].
  cbn [String.length replace_from]. destruct k as [|k]; [lia|].
  intros H. apply IH. lia.
Qed.

Lemma replace_whole (p r : string) : p <> "" -> replace_all p r p = r.
Proof.
  destruct p as [|a p]; [congruence|]. intros _.
  unfold replace_all. cbn [replace_from].
  rewrite (matches_at_refl (String a p)).
  rewrite replace_from_skip by (cbn [String.length]; lia).
  apply append_empty.
Qed.

Lemma nowhere_in_shorter (p s : string) :
  (String.length s < String.length p)%nat -> matches_nowhere p s = true.
Proof.
  induction s as [|c s IH]; [reflexivity|]. cbn [matches_nowhere].
  intros H. rewrite matches_at_shorter by exact H.
  apply IH. cbn [String.length] in H. lia.
Qed.

(** Another name that is not shorter matches nowhere in a name. *)
Lemma nowhere_in_other_name (p s : string) :
  all_chars name_character p = true -> all_chars name_character s = true ->
  not_shorter p s -> p <> s -> matches_nowhere p s = true.
Proof.
  unfold not_shorter. intros Hp Hs Hlength Hne.
  destruct s as [|c s]; [reflexivity|]. cbn [matches_nowhere].
  apply andb_true_iff. split.
  - apply negb_true_iff.
    destruct (matches_at p (String c s)) eqn:E; [|reflexivity].
    destruct (Nat.eq_dec (String.length p) (String.length (String c s)))
      as [Heq|Hlt].
    + exfalso. apply Hne. now apply matches_at_same_length.
    + rewrite matches_at_shorter in E by lia. discriminate.
  - apply nowhere_in_shorter. cbn [String.length] in Hlength. lia.
Qed.

(** A name matches nowhere in a number printed in positional notation. *)
Lemma nowhere_in_number (p s : string) :
  variable_name p = true -> all_chars positional_character s = true ->
  matches_nowhere p s = true.
Proof.
  intros Hp. destruct p as [|a p]; [discriminate|].
  cbn [variable_name] in Hp. apply andb_true_iff in Hp as [Ha _].
  induction s as [|c s IH]; [reflexivity|].
  cbn [all_chars matches_nowhere matches_at]. intros H.
  apply andb_true_iff in H as [Hc Hs]. rewrite (IH Hs), andb_true_r.
  apply negb_true_iff, andb_false_iff. left.
  assert (Hstart : name_character a = true)
    by (unfold name_character; now rewrite Ha).
  destruct (name_character_facts a Hstart) as (-> & _ & _).
  rewrite (positional_character_lower c Hc).
  destruct (Ascii.eqb a c) eqn:E; [|reflexivity].
  apply Ascii.eqb_eq in E. subst c.
  rewrite (name_start_not_positional a Ha) in Hc. discriminate.
Qed.

Lemma variable_name_not_empty (s : string) : variable_name s = true -> s <> "".
Proof. destruct s; [discriminate|congruence]. Qed.

Lemma substitute_key_nowhere (context : ExpressionContext)
  (text key : string) :
  variable_name key = true -> matches_nowhere key text = true ->
  substitute_key context (Some text) key = Some text.
Proof.
  intros Hname Hnowhere. unfold substitute_key.
  destruct (get key context); [|reflexivity].
  rewrite RegExp_literal_name by exact Hname. f_equal.
  unfold replace_all. destruct key as [|a key]; [discriminate|].
  now apply replace_from_nowhere.
Qed.

Lemma substitute_key_self (context : ExpressionContext) (key : string)
  (v : number) :
  variable_name key = true -> get key context = Some v ->
  substitute_key context (Some key) key = Some (Number_toString v).
Proof.
  intros Hname Hget. unfold substitute_key. rewrite Hget.
  rewrite RegExp_literal_name by exact Hname. f_equal.
  apply replace_whole. now apply variable_name_not_empty.
Qed.

Lemma substitute_keys_nowhere (context : ExpressionContext) (text : string)
  (keys : list string) :
  (forall k, In k keys ->
             variable_name k = true /\ matches_nowhere k text = true) ->
  fold_left (substitute_key context) keys (Some text) = Some text.
Proof.
  induction keys as [|k keys IH]; intros H; [reflexivity|].
  cbn [fold_left].
  destruct (H k (or_introl eq_refl)) as [Hname Hnowhere].
  rewrite substitute_key_nowhere by assumption.
  apply IH. intros k' Hk'. apply H. now right.
Qed.

(** ** The order of the substitution *)

Lemma insert_longest_permutation (k : string) (l : list string) :
  Permutation (insert_longest k l) (k :: l).
Proof.
  induction l as [|h l IH]; cbn [insert_longest]; [reflexivity|].
  destruct (String.length h <=? String.length k)%nat; [reflexivity|].
  rewrite IH. apply perm_swap.
Qed.

Lemma sort_longest_first_permutation (keys : list string) :
  Permutation (sort_longest_first keys) keys.
Proof.
  induction keys as [|k keys IH]; [reflexivity|].
  unfold sort_longest_first. cbn [fold_right].
  rewrite insert_longest_permutation. now apply perm_skip.
Qed.

Lemma insert_index_permutation (n : N) (k : string) (l : list (N * string)) :
  Permutation (insert_index n k l) ((n, k) :: l).
Proof.
  induction l as [|[m h] l IH]; cbn [insert_index]; [reflexivity|].
  destruct (n <? m)%N; [reflexivity|]. rewrite IH. apply perm_swap.
Qed.

Lemma partition_keys_permutation (keys : list string) :
  Permutation
    (map snd (fst (partition_keys keys)) ++ snd (partition_keys keys))%list
    keys.
Proof.
  induction keys as [|k keys IH]; [reflexivity|]. cbn [partition_keys].
  destruct (partition_keys keys) as [idx str]. cbn [fst snd] in *.
  destruct (array_index k) as [n|]; cbn [fst snd].
  - rewrite (Permutation_map snd (insert_index_permutation n k idx)).
    cbn [map snd app]. now apply perm_skip.
  - rewrite <- Permutation_middle. now apply perm_skip.
Qed.

Lemma Object_keys_permutation {V : Type} (o : object V) :
  Permutation (Object_keys o) (map fst o).
Proof.
  unfold Object_keys.
  pose proof (partition_keys_permutation (map fst o)) as H.
  now destruct (partition_keys (map fst o)).
Qed.

Lemma insert_longest_head (x k : string) (l : list string) :
  not_shorter x k -> HdRel not_shorter x l ->
  HdRel not_shorter x (insert_longest k l).
Proof.
  intros Hxk Hxl. destruct l as [|h l]; cbn [insert_longest].
  - now constructor.
  - destruct (String.length h <=? String.length k)%nat.
    + now constructor.
    + constructor. now inversion Hxl.
Qed.

Lemma insert_longest_Sorted (k : string) (l : list string) :
  Sorted not_shorter l -> Sorted not_shorter (insert_longest k l).
Proof.
  induction l as [|h l IH]; intros Hl; cbn [insert_longest].
  - repeat constructor.
  - destruct (String.length h <=? String.length k)%nat eqn:E.
    + constructor; [exact Hl|]. constructor.
      unfold not_shorter. now apply Nat.leb_le.
    + inversion Hl as [|? ? Hsorted Hhead]; subst.
      constructor; [now apply IH|].
      apply insert_longest_head; [|exact Hhead].
      unfold not_shorter. apply Nat.leb_gt in E. lia.
Qed.

Lemma sort_longest_first_Sorted (keys : list string) :
  StronglySorted not_shorter (sort_longest_first keys).
Proof.
  apply Sorted_StronglySorted.
  - intros a b c. unfold not_shorter. lia.
  - induction keys as [|k keys IH]; [constructor|].
    unfold sort_longest_first. cbn [fold_right].
    now apply insert_longest_Sorted.
Qed.

Lemma sorted_before {A : Type} (R : A -> A -> Prop) (before after : list A)
  (x y : A) :
  StronglySorted R (before ++ x :: after) -> In y before -> R y x.
Proof.
  induction before as [|b before IH]; intros Hsorted Hin; [contradiction|].
  cbn [app] in Hsorted. inversion Hsorted as [|? ? Hrest Hall]; subst.
  destruct Hin as [->|Hin]; [|now apply IH].
  rewrite Forall_forall in Hall. apply Hall.
  apply in_or_app. right. now left.
Qed.

(** ** The residue of a variable name *)

Lemma substitute_variable (context : ExpressionContext) (key : string)
  (v : number) :
  Forall (fun k => variable_name k = true) (map fst context) ->
  NoDup (map fst context) ->
  get key context = Some v ->
  all_chars positional_character (Number_toString v) = true ->
  substitute key context = Some (Number_toString v).
Proof.
  intros Hnames Hdistinct Hget Hprinted. unfold substitute. cbv zeta.
  pose proof (sort_longest_first_Sorted (Object_keys context)) as Hsorted.
  assert (Hperm : Permutation (sort_longest_first (Object_keys context))
                              (map fst context)).
  { rewrite sort_longest_first_permutation. apply Object_keys_permutation. }
  assert (Hkey : In key (sort_longest_first (Object_keys context))).
  { apply (Permutation_in _ (Permutation_sym Hperm)).
    now apply (get_some_key context key v). }
  assert (Hnodup : NoDup (sort_longest_first (Object_keys context))).
  { apply (Permutation_NoDup (Permutation_sym Hperm)). exact Hdistinct. }
  assert (Hall : forall k, In k (sort_longest_first (Object_keys context)) ->
                           variable_name k = true).
  { intros k Hk. rewrite Forall_forall in Hnames. apply Hnames.
    now apply (Permutation_in _ Hperm). }
  destruct (in_split _ _ Hkey) as (before & after & Esplit).
  rewrite Esplit in Hsorted, Hnodup, Hall. rewrite Esplit.
  apply NoDup_remove_2 in Hnodup.
  rewrite fold_left_app. cbn [fold_left].
  assert (Hname : variable_name key = true).
  { apply Hall. apply in_or_app. right. now left. }
  rewrite substitute_keys_nowhere.
  - rewrite (substitute_key_self context key v Hname Hget).
    apply substitute_keys_nowhere. intros k Hk. split.
    + apply Hall. apply in_or_app. right. now right.
    + apply nowhere_in_number; [|exact Hprinted].
      apply Hall. apply in_or_app. right. now right.
  - intros k Hk.
    assert (Hk_name : variable_name k = true).
    { apply Hall. apply in_or_app. now left. }
    split; [exact Hk_name|].
    apply nowhere_in_other_name.
    + now apply variable_name_characters.
    + now apply variable_name_characters.
    + exact (sorted_before not_shorter before after key k Hsorted Hk).
    + intros ->. apply Hnodup. apply in_or_app. now left.
Qed.

Lemma evaluateExpression_residue (text : string)
  (context : ExpressionContext) :
  evaluateExpression (Str text) context
  = match substitute (trim (toLowerCase text)) context with
    | None => None
    | Some residue => evaluateResidue residue
    end.
Proof. reflexivity. Qed.

Lemma evaluateExpression_variable (context : ExpressionContext)
  (key : string) (v : number) :
  Forall (fun k => variable_name k = true) (map fst context) ->
  NoDup (map fst context) ->
  get key context = Some v ->
  all_chars positional_character (Number_toString v) = true ->
  evaluateExpression (Str key) context = evaluateResidue (Number_toString v).
Proof.
  intros Hnames Hdistinct Hget Hprinted.
  assert (Hname : variable_name key = true).
  { rewrite Forall_forall in Hnames. apply Hnames.
    now apply (get_some_key context key v). }
  rewrite evaluateExpression_residue, prepared_name by exact Hname.
  now rewrite (substitute_variable context key v).
Qed.

(** The longest-first substitution keeps the variables apart. In a context
    whose keys are distinct variable names (small letters, digits and
    underscores, not starting with a digit), the name of a variable whose
    value is printed in positional notation is replaced by that text and by
    nothing else, whatever other names contain it or are contained in it:
    the expression evaluates as if the variable were alone in the
    context. *)
Theorem evaluateExpression_variable_alone (context : ExpressionContext)
  (key : string) (v : number) :
  Forall (fun k => variable_name k = true) (map fst context) ->
  NoDup (map fst context) ->
  get key context = Some v ->
  all_chars positional_character (Number_toString v) = true ->
  substitute key context = Some (Number_toString v)
  /\ evaluateExpression (Str key) context
     = evaluateExpression (Str key) [(key, v)].
Proof.
  intros Hnames Hdistinct Hget Hprinted.
  split; [now apply substitute_variable|].
  assert (Hname : variable_name key = true).
  { rewrite Forall_forall in Hnames. apply Hnames.
    now apply (get_some_key context key v). }
  rewrite (evaluateExpression_variable context key v) by assumption.
  symmetry. apply evaluateExpression_variable.
  - constructor; [exact Hname|constructor].
  - constructor; [intros []|constructor].
  - cbn [get]. now rewrite String.eqb_refl.
  - exact Hprinted.
Qed.

Lemma evaluateExpression_variable_alone_witness :
  evaluateExpression (Str "thickness")
    [ ("total_height", 720); ("material_thickness", 18); ("thickness", 16) ]
  = evaluateExpression (Str "thickness") [("thickness", 16)].
Proof.
  refine (proj2 (evaluateExpression_variable_alone
                   [ ("total_height", 720); ("material_thickness", 18);
                     ("thickness", 16) ]
                   "thickness" 16 _ _ _ _)).
  - repeat constructor.
  - repeat constructor; cbn; intuition discriminate.
  - reflexivity.
  - vm_compute. reflexivity.
Defined.

(** In a context whose keys are distinct variable names, the name of a
    variable whose value is a whole number from 0 to 9999 evaluates to that
    number. *)
Theorem evaluateExpression_whole_number (context : ExpressionContext)
  (key : string) (n : Z) :
  Forall (fun k => variable_name k = true) (map fst context) ->
  NoDup (map fst context) ->
  get key context = Some (of_Z n) ->
  (0 <= n <= 9999)%Z ->
  evaluateExpression (Str key) context = Some (of_Z n).
Proof.
  intros Hnames Hdistinct Hget Hn.
  pose proof (whole_number_checked n Hn) as H.
  unfold whole_number_checks in H. cbv zeta in H.
  apply andb_true_iff in H as [H Hvalue].
  apply andb_true_iff in H as [_ Hprinted].
  rewrite (evaluateExpression_variable context key (of_Z n)) by assumption.
  destruct (evaluateResidue (Number_toString (of_Z n))) as [v|];
    [|discriminate].
  apply Leibniz.eqb_spec in Hvalue. now subst v.
Qed.

Lemma evaluateExpression_whole_number_witness :
  evaluateExpression (Str "total_height")
    [ ("total_height", of_Z 720); ("height", of_Z 700) ]
  = Some (of_Z 720).
Proof.
  apply (evaluateExpression_whole_number
           [ ("total_height", of_Z 720); ("height", of_Z 700) ]
           "total_height" 720).
  - repeat constructor.
  - repeat constructor; cbn; intuition discriminate.
  - reflexivity.
  - lia.
Defined.

(** The substitution is textual: a negative value after a minus sign gives
    the residue [10--5], which is no expression, and the result is 0. *)
Example evaluateExpression_minus_negative :
  evaluateExpression (Str "x-y") [("x", 10); ("y", -5)] = Some 0
  /\ evaluateExpression (Str "x - y") [("x", 10); ("y", -5)] = Some 15.
Proof. split; vm_compute; reflexivity. Qed.
